(** * E-commerce system: inventory service, order choreography, broker RPC

    A shallow embedding of the inventory service
    (inventory-service/src/inventory/inventory.service.ts) together with the
    parts of the system it talks to, and the properties of the system's
    specification stated over it. *)

From Stdlib Require Import ZArith NArith QArith Ascii String List Lia.
From stdpp Require Import base option list strings gmap.

Local Open Scope string_scope.
Local Open Scope Z_scope.

(** ** JavaScript primitives used by the services *)

Module Js.

(** One decimal digit, [0 <= d < 10], as its character. *)
Definition digitChar (d : N) : ascii := ascii_of_N (48 + d).

Definition isDigit (c : ascii) : bool :=
  ((48 <=? N_of_ascii c) && (N_of_ascii c <=? 57))%N.

(** The decimal digits of [n], least significant first.  [fuel] bounds the
    number of digits produced. *)
Fixpoint digitsRev (fuel : nat) (n : N) : list ascii :=
  match fuel with
  | O => []
  | S fuel' =>
      if (n <? 10)%N then [digitChar n]
      else digitChar (n mod 10) :: digitsRev fuel' (n / 10)
  end.

(** [Number.prototype.toString()] on a non-negative integer.  A number has
    no more decimal digits than binary ones, so the fuel is never used up. *)
Definition N_toString (n : N) : string :=
  string_of_list_ascii (rev (digitsRev (S (N.to_nat (N.log2 n))) n)).

Fixpoint repeatChar (n : nat) (c : ascii) : string :=
  match n with
  | O => EmptyString
  | S n' => String c (repeatChar n' c)
  end.

(** [String.prototype.padStart(targetLength, padString)] with a one
    character pad string: strings that are long enough are returned as they
    are. *)
Definition padStart (targetLength : nat) (pad : ascii) (s : string) : string :=
  repeatChar (targetLength - String.length s) pad ++ s.

Definition lowerChar (c : ascii) : ascii :=
  let n := N_of_ascii c in
  if ((65 <=? n) && (n <=? 90))%N then ascii_of_N (n + 32) else c.

(** [String.prototype.toLowerCase()] on ASCII text. *)
Fixpoint toLowerCase (s : string) : string :=
  match s with
  | EmptyString => EmptyString
  | String c s' => String (lowerChar c) (toLowerCase s')
  end.

(** Truthiness of an optional string: [undefined] and [''] are falsy. *)
Definition truthy (s : option string) : bool :=
  match s with
  | None => false
  | Some EmptyString => false
  | Some (String _ _) => true
  end.

Fixpoint allChars (p : ascii -> bool) (s : string) : bool :=
  match s with
  | EmptyString => true
  | String c s' => p c && allChars p s'
  end.

(** The number a list of decimal digits stands for, least significant digit
    first. *)
Fixpoint valueRev (digits : list ascii) : N :=
  match digits with
  | [] => 0
  | c :: rest => (N_of_ascii c - 48) + 10 * valueRev rest
  end%N.

(** *** Numbers

    The quantities of the services are JavaScript numbers, doubles; the
    model keeps the integer-valued ones, as integers.  Comparisons of doubles
    are exact; sums and differences are rounded to the nearest double, ties
    to the even significand.  A result of magnitude 2^1024 or more would be
    [Infinity], which the integers do not have: the rounding below is that of
    the doubles for results of smaller magnitude. *)

(** [Number.MAX_SAFE_INTEGER], 2^53 - 1. *)
Definition MAX_SAFE_INTEGER : Z := 9007199254740991.

(** [Number.isSafeInteger] on an integer. *)
Definition isSafeInteger (z : Z) : bool := Z.abs z <=? MAX_SAFE_INTEGER.

(** The double nearest to an integer: integers up to 2^53 are doubles; a
    larger one keeps its 53 leading bits, rounded to nearest, ties to even. *)
Definition roundDouble (z : Z) : Z :=
  let m := Z.abs z in
  if m <=? MAX_SAFE_INTEGER then z
  else
    let ulp := 2 ^ (Z.log2 m - 52) in
    let lower := m / ulp in
    let rest := m mod ulp in
    let up := (ulp <? 2 * rest) || ((2 * rest =? ulp) && Z.odd lower) in
    Z.sgn z * ((if up then lower + 1 else lower) * ulp).

(** [a - b] and [a + b] on numbers. *)
Definition sub (a b : Z) : Z := roundDouble (a - b).
Definition add (a b : Z) : Z := roundDouble (a + b).

Definition decimalLength (x : Z) : Z :=
  Z.of_nat (String.length (N_toString (Z.to_N x))).

(** The decimals [s * 10^(n-k)] with [k] digits next to [x], if one of them
    is read back as the double [x]: the nearer one, and of two equally near
    the even one. *)
Definition candidate (x len k : Z) : option (Z * Z) :=
  if len <=? k then Some (x, len)
  else
    let u := 10 ^ (len - k) in
    let lo := x / u in
    let hi := lo + 1 in
    let below := if 10 ^ (k - 1) <=? lo then Some (lo, len) else None in
    let above :=
      if hi =? 10 ^ k then Some (10 ^ (k - 1), len + 1) else Some (hi, len) in
    let okLo := (10 ^ (k - 1) <=? lo) && (roundDouble (lo * u) =? x) in
    let okHi := roundDouble (hi * u) =? x in
    let nearerHi :=
      (hi * u - x <? x - lo * u)
      || ((hi * u - x =? x - lo * u) && Z.even hi) in
    if okLo && okHi then (if nearerHi then above else below)
    else if okLo then below
    else if okHi then above
    else None.

(** The digits [s] and the exponent [n] of [Number::toString]: as few digits
    as identify the double; seventeen always do. *)
Fixpoint shortestDigits (fuel : nat) (x len k : Z) : Z * Z :=
  match fuel with
  | O => (x, len)
  | S fuel' =>
      match candidate x len k with
      | Some found => found
      | None => shortestDigits fuel' x len (k + 1)
      end
  end.

(** [Number::toString] on a positive integer-valued double: the digits
    followed by zeros up to 21 digits, the exponent form beyond. *)
Definition printNumber (x : Z) : string :=
  let (s, n) := shortestDigits 17 x (decimalLength x) 1 in
  let digits := N_toString (Z.to_N s) in
  let k := Z.of_nat (String.length digits) in
  if n <=? 21 then digits ++ repeatChar (Z.to_nat (n - k)) "0"
  else
    match digits with
    | EmptyString => EmptyString
    | String first EmptyString =>
        String first ("e+" ++ N_toString (Z.to_N (n - 1)))
    | String first more =>
        String first ("." ++ more ++ "e+" ++ N_toString (Z.to_N (n - 1)))
    end.

(** A number in a template literal: [Number.prototype.toString()]. *)
Definition Z_toString (z : Z) : string :=
  let x := roundDouble (Z.abs z) in
  let text :=
    if x <=? MAX_SAFE_INTEGER then N_toString (Z.to_N x)
    else if 2 ^ 1024 <=? x then "Infinity"
    else printNumber x in
  if z <? 0 then "-" ++ text else text.

End Js.

(** ** Data model of the inventory service *)

Module Inventory.

(** [InventoryEventType] (events/inventory.events.ts). *)
Inductive InventoryEventType := STOCK_ADDED | STOCK_REDUCED.

(** Modelled from the spec: the string values of [InventoryEventType].  The
    enumeration is declared in events/inventory.events.ts; section 4.1 of the
    specification fixes the routing keys [inventory.stock.added] and
    [inventory.stock.reduced], which the service builds as
    ['inventory.stock.' + eventType.toLowerCase()]. *)
Definition eventTypeValue (t : InventoryEventType) : string :=
  match t with
  | STOCK_ADDED => "ADDED"
  | STOCK_REDUCED => "REDUCED"
  end.

(** [CreateInventoryDto]: the product code is optional. *)
Record CreateInventoryDto := mkCreateInventoryDto {
  dto_productCode : option string;
  dto_name : string;
  dto_description : string;
  dto_quantity : Z;
  dto_price : Q;
}.

(** An [Inventory] document as the service sees it. *)
Record Inventory := mkInventory {
  productCode : string;
  name : string;
  description : string;
  quantity : Z;
  price : Q;
}.

(** The columns the store keeps under an item's product code. *)
Record InventoryDoc := mkInventoryDoc {
  doc_name : string;
  doc_description : string;
  doc_quantity : Z;
  doc_price : Q;
}.

Definition toDoc (i : Inventory) : InventoryDoc :=
  mkInventoryDoc (name i) (description i) (quantity i) (price i).

Definition ofDoc (code : string) (d : InventoryDoc) : Inventory :=
  mkInventory code (doc_name d) (doc_description d) (doc_quantity d) (doc_price d).

Definition withQuantity (q : Z) (i : Inventory) : Inventory :=
  mkInventory (productCode i) (name i) (description i) q (price i).

(** [StockUpdateEvent] (events/inventory.events.ts). *)
Record StockUpdateEvent := mkStockUpdateEvent {
  eventType : InventoryEventType;
  ev_productCode : string;
  previousQuantity : Z;
  newQuantity : Z;
  timestamp : Z;
  productName : string;
}.

(** What a rejected promise carries. *)
Inductive Exception :=
| NotFoundException (message : string)
| ConflictException (message : string)
| BadRequestException (messages : list string)
| Error (message : string)
| BrokerError (message : string).

Inductive LogLevel := LevelLog | LevelError.

Record LogEntry := mkLogEntry {
  level : LogLevel;
  log_message : string;
  log_context : string;
}.

(** A message handed to the broker: exchange, routing key, payload. *)
Record Published := mkPublished {
  pub_exchange : string;
  pub_routingKey : string;
  pub_payload : StockUpdateEvent;
}.

(** What has been done to the store and to the broker, one entry per store
    write and per message the broker took. *)
Inductive Effect :=
| Wrote (code : string) (doc : InventoryDoc)
| Sent (message : Published).

(** Modelled from the spec: what the service reads and writes outside
    itself.  [InventoryRepository] is not part of the sources; section 6
    describes the store as a keyed lookup by [productCode] with
    insert-if-absent and update-by-key, and uniqueness of [productCode]
    enforced by the store.  It is a finite map from product codes to the
    remaining columns.

    [publishFault] is the behaviour of [rabbitMQService.publish]:
    [None] when the broker accepts messages, [Some m] when the call throws an
    error with message [m].  [entropy] holds the successive values of
    [Math.floor(Math.random() * 1000000000)]; [clock] is what [new Date()]
    reads.  [effects] is the history of the surroundings: the store writes
    and the messages the broker took, in the order they happened. *)
Record World := mkWorld {
  store : gmap string InventoryDoc;
  published : list Published;
  logs : list LogEntry;
  entropy : list N;
  publishFault : option string;
  clock : Z;
  effects : list Effect;
}.

Definition setStore (s : gmap string InventoryDoc) (w : World) : World :=
  mkWorld s (published w) (logs w) (entropy w) (publishFault w) (clock w)
    (effects w).
Definition setPublished (p : list Published) (w : World) : World :=
  mkWorld (store w) p (logs w) (entropy w) (publishFault w) (clock w)
    (effects w).
Definition setLogs (l : list LogEntry) (w : World) : World :=
  mkWorld (store w) (published w) l (entropy w) (publishFault w) (clock w)
    (effects w).
Definition setEntropy (e : list N) (w : World) : World :=
  mkWorld (store w) (published w) (logs w) e (publishFault w) (clock w)
    (effects w).
Definition setEffects (h : list Effect) (w : World) : World :=
  mkWorld (store w) (published w) (logs w) (entropy w) (publishFault w) (clock w)
    h.

(** The store takes a document under a product code. *)
Definition writeDoc (code : string) (doc : InventoryDoc) (w : World) : World :=
  setEffects (effects w ++ [Wrote code doc])
    (setStore (<[code := doc]> (store w)) w).

(** The broker takes a message. *)
Definition takeMessage (message : Published) (w : World) : World :=
  setEffects (effects w ++ [Sent message])
    (setPublished (published w ++ [message]) w).

(** *** The promise monad: state, exceptions, and loops that may not end *)

Inductive Outcome (A : Type) :=
| Return (a : A)
| Throw (e : Exception)
| Diverge.
Arguments Return {A} a.
Arguments Throw {A} e.
Arguments Diverge {A}.

Definition Promise (A : Type) : Type := World -> Outcome A * World.

Definition resolve {A} (a : A) : Promise A := fun w => (Return a, w).
Definition reject {A} (e : Exception) : Promise A := fun w => (Throw e, w).
Definition await {A B} (m : Promise A) (k : A -> Promise B) : Promise B :=
  fun w =>
    match m w with
    | (Return a, w') => k a w'
    | (Throw e, w') => (Throw e, w')
    | (Diverge, w') => (Diverge, w')
    end.
(** [try { body } catch (error) { handler }] *)
Definition tryCatch {A} (body : Promise A) (handler : Exception -> Promise A)
  : Promise A :=
  fun w =>
    match body w with
    | (Throw e, w') => handler e w'
    | r => r
    end.

Definition modify (f : World -> World) : Promise unit := fun w => (Return tt, f w).

Notation "'let*' x ':=' m 'in' k" := (await m (fun x => k))
  (at level 10, x name, m at level 100, k at level 200).
Notation "'do*' m 'in' k" := (await m (fun _ => k))
  (at level 10, m at level 100, k at level 200).

(** *** Collaborators of the service *)

(** Modelled from the spec: [ElasticsearchLoggerService] is not part of the
    sources; section 1 treats the log sink as an append-only write interface.
    These are its [log] and [error] methods. *)
Definition logger_log (message context : string) : Promise unit :=
  modify (fun w => setLogs (logs w ++ [mkLogEntry LevelLog message context]) w).
Definition logger_error (message context : string) : Promise unit :=
  modify (fun w => setLogs (logs w ++ [mkLogEntry LevelError message context]) w).

(** [RabbitMQExchanges.INVENTORY] *)
Definition INVENTORY : string := "inventory".

(** Modelled from the spec: [RabbitMQService.publish(exchange, routingKey,
    message)] is not part of the sources; section 4.2 makes it a send whose
    failure is reported synchronously to the caller and is not retried.  The
    service wraps the call in [try]/[catch]. *)
Definition rabbitMQ_publish (exchange routingKey : string)
    (message : StockUpdateEvent) : Promise bool :=
  fun w =>
    match publishFault w with
    | Some m => (Throw (BrokerError m), w)
    | None =>
        (Return true, takeMessage (mkPublished exchange routingKey message) w)
    end.

(** [new Date()] *)
Definition newDate : Promise Z := fun w => (Return (clock w), w).

(** Modelled from the spec: [InventoryRepository.findItemById(productCode)],
    the keyed lookup of section 6: the document stored under the code, or
    [null]. *)
Definition findItemById (code : string) : Promise (option Inventory) :=
  fun w => (Return (ofDoc code <$> store w !! code), w).

(** Modelled from the spec: [InventoryRepository.createItem(createDto)], the
    insert-if-absent of section 6, keyed by the product code of the DTO; it
    resolves to the saved document. *)
Definition repository_createItem (createDto : CreateInventoryDto)
    : Promise Inventory :=
  fun w =>
    match dto_productCode createDto with
    | None => (Throw (Error "Inventory validation failed: productCode is required"), w)
    | Some code =>
        match store w !! code with
        | Some _ => (Throw (Error "E11000 duplicate key error"), w)
        | None =>
            let saved := mkInventory code (dto_name createDto)
                           (dto_description createDto) (dto_quantity createDto)
                           (dto_price createDto) in
            (Return saved, writeDoc code (toDoc saved) w)
        end
    end.

(** Modelled from the spec: [InventoryRepository.updateStock(productCode,
    quantity)], the update-by-key of section 6; it resolves to the updated
    document, or to [null] when there is none. *)
Definition repository_updateStock (code : string) (q : Z)
    : Promise (option Inventory) :=
  fun w =>
    match store w !! code with
    | None => (Return None, w)
    | Some d =>
        let updated := withQuantity q (ofDoc code d) in
        (Return (Some updated), writeDoc code (toDoc updated) w)
    end.

(** Modelled from the spec: [document.save()] on a document of the store
    (update-by-key, section 6): the document is written back under its product
    code. *)
Definition save (doc : Inventory) : Promise unit :=
  modify (writeDoc (productCode doc) (toDoc doc)).

(** *** InventoryService *)

(** [generateProductCode()]: ['INV-'] followed by the random number, padded
    to nine characters.  When the run has seen all of [entropy] the
    computation is cut off. *)
Definition generateProductCode : Promise string :=
  fun w =>
    match entropy w with
    | [] => (Diverge, w)
    | randomNum :: rest =>
        (Return ("INV-" ++ Js.padStart 9 "0" (Js.N_toString randomNum)),
         setEntropy rest w)
    end.

(** One round of [while (!isUnique) { ... }] per unit of [fuel]. *)
Fixpoint generateUniqueProductCode_loop (fuel : nat) : Promise string :=
  match fuel with
  | O => fun w => (Diverge, w)
  | S fuel' =>
      let* code := generateProductCode in
      let* existingItem := findItemById code in
      match existingItem with
      | None => resolve code
      | Some _ => generateUniqueProductCode_loop fuel'
      end
  end.

(** [generateUniqueProductCode()].  Every round consumes one random number,
    so one round more than there are numbers left is as good as no bound. *)
Definition generateUniqueProductCode : Promise string :=
  fun w => generateUniqueProductCode_loop (S (length (entropy w))) w.

Definition withProductCode (code : string) (d : CreateInventoryDto)
    : CreateInventoryDto :=
  mkCreateInventoryDto (Some code) (dto_name d) (dto_description d)
    (dto_quantity d) (dto_price d).

Definition routingKeyOf (t : InventoryEventType) : string :=
  "inventory.stock." ++ Js.toLowerCase (eventTypeValue t).

(** [publishStockUpdateEvent(event)] *)
Definition publishStockUpdateEvent (event : StockUpdateEvent) : Promise unit :=
  tryCatch
    (do* rabbitMQ_publish INVENTORY (routingKeyOf (eventType event)) event in
     logger_log
       ("Published " ++ eventTypeValue (eventType event)
          ++ " event for product " ++ ev_productCode event)
       "InventoryService")
    (fun error =>
       let message :=
         match error with
         | NotFoundException m | ConflictException m | Error m | BrokerError m => m
         | BadRequestException ms => String.concat "," ms
         end in
       do* logger_error ("Failed to publish stock update event: " ++ message)
             "InventoryService" in
       reject error).

(** [createItem(createDto)], over the [createItem] of the repository the
    service was constructed with. *)
Definition createItemOver (write : CreateInventoryDto -> Promise Inventory)
    (createDto : CreateInventoryDto) : Promise Inventory :=
  let* createDto :=
    match dto_productCode createDto with
    | Some (String _ _ as code) =>
        let* existingItem := findItemById code in
        match existingItem with
        | Some _ =>
            reject (ConflictException "Item with this product code already exists")
        | None => resolve createDto
        end
    | _ =>
        let* code := generateUniqueProductCode in
        resolve (withProductCode code createDto)
    end in
  let* savedItem := write createDto in
  let* now := newDate in
  let stockEvent :=
    {| eventType := STOCK_ADDED;
       ev_productCode := productCode savedItem;
       previousQuantity := 0;
       newQuantity := quantity savedItem;
       timestamp := now;
       productName := name savedItem |} in
  do* publishStockUpdateEvent stockEvent in
  do* logger_log "Item created" (productCode savedItem) in
  resolve savedItem.

(** [createItem(createDto)] of the service on the store. *)
Definition createItem (createDto : CreateInventoryDto) : Promise Inventory :=
  createItemOver repository_createItem createDto.

(** [updateStock(productCode, quantity)], over the [updateStock] of the
    repository the service was constructed with. *)
Definition updateStockOver (write : string -> Z -> Promise (option Inventory))
    (code : string) (q : Z) : Promise (option Inventory) :=
  let* item := findItemById code in
  match item with
  | None => reject (NotFoundException "Item not found")
  | Some item =>
      let previous := quantity item in
      let* updatedItem := write code q in
      let type := if previous <? q then STOCK_ADDED else STOCK_REDUCED in
      let* now := newDate in
      let stockEvent :=
        {| eventType := type;
           ev_productCode := code;
           previousQuantity := previous;
           newQuantity := q;
           timestamp := now;
           productName := name item |} in
      do* publishStockUpdateEvent stockEvent in
      do* logger_log
            ("Stock updated for item " ++ name item ++ ". New stock: "
               ++ Js.Z_toString q)
            "InventoryService" in
      resolve updatedItem
  end.

(** [updateStock(productCode, quantity)] of the service on the store. *)
Definition updateStock (code : string) (q : Z) : Promise (option Inventory) :=
  updateStockOver repository_updateStock code q.

(** A repository whose writes are refused. *)
Definition refusedCreate (m : string) (createDto : CreateInventoryDto)
    : Promise Inventory :=
  reject (Error m).

Definition refusedUpdate (m : string) (code : string) (q : Z)
    : Promise (option Inventory) :=
  reject (Error m).

(** [getItem(productCode)] *)
Definition getItem (code : string) : Promise Inventory :=
  let* item := findItemById code in
  match item with
  | None => reject (NotFoundException "Item not found")
  | Some item =>
      do* logger_log
            ("Fetched stock for item " ++ name item ++ ": " ++ productCode item)
            "InventoryService" in
      resolve item
  end.

(** The reply of [checkStock]. *)
Record StockCheck := mkStockCheck {
  available : bool;
  message : string;
  currentStock : Z;
}.

(** [checkStock(productCode, quantity)] *)
Definition checkStock (code : string) (q : Z) : Promise StockCheck :=
  let* inventory := findItemById code in
  match inventory with
  | None =>
      do* logger_log ("Stock check failed: Product " ++ code ++ " not found")
            "InventoryService" in
      resolve {| available := false;
                 message := "Item not found in inventory";
                 currentStock := 0 |}
  | Some inventory =>
      let available := q <=? quantity inventory in
      resolve
        {| available := available;
           message :=
             if available then "Stock available"
             else "Insufficient stock. Requested: " ++ Js.Z_toString q
                    ++ ", Available: " ++ Js.Z_toString (quantity inventory);
           currentStock := quantity inventory |}
  end.

Definition insufficientStockMessage (item : Inventory) (q : Z) : string :=
  "Insufficient stock for " ++ name item ++ ". Requested: " ++ Js.Z_toString q
    ++ ", Available: " ++ Js.Z_toString (quantity item).

(** [deductStock(productCode, quantity)].  [getItem] never resolves to a
    falsy value, so the [if (!inventory)] that follows it in the source has
    nothing to do.  [inventory.quantity -= quantity] and
    [inventory.quantity + quantity] are the subtraction and the addition of
    numbers. *)
Definition deductStock (code : string) (q : Z) : Promise unit :=
  let* inventory := getItem code in
  if quantity inventory <? q then
    reject (Error (insufficientStockMessage inventory q))
  else
    let inventory := withQuantity (Js.sub (quantity inventory) q) inventory in
    do* save inventory in
    let* now := newDate in
    let stockEvent :=
      {| eventType := STOCK_REDUCED;
         ev_productCode := code;
         previousQuantity := Js.add (quantity inventory) q;
         newQuantity := quantity inventory;
         timestamp := now;
         productName := name inventory |} in
    publishStockUpdateEvent stockEvent.

(** *** The HTTP surface and runs of requests *)

(** Modelled from the spec: the DTO classes that the [ValidationPipe] checks
    are not part of the sources (the tests show a request with a negative
    quantity answered with status 400).  Section 6: "price/quantity on item
    creation must be non-negative". *)
Definition validateCreateInventoryDto (dto : CreateInventoryDto) : list string :=
  ((if dto_quantity dto <? 0 then ["quantity must not be less than 0"] else [])
   ++ (if Qle_bool 0 (dto_price dto) then [] else ["price must not be less than 0"]))%list.

(** Modelled from the spec: the body of [PUT /inventory/:productCode/stock];
    section 6: "quantity is a strictly positive number on all write paths". *)
Definition validateUpdateStockDto (q : Z) : list string :=
  if 0 <? q then [] else ["quantity must be a positive number"].

(** Modelled from the spec: [POST /api/v1/inventory], the caller-facing
    [createItem(dto)] of section 6.  The controller is not part of the sources;
    the request body is validated and handed to the service. *)
Definition postInventory (dto : CreateInventoryDto) : Promise Inventory :=
  match validateCreateInventoryDto dto with
  | [] => createItem dto
  | messages => reject (BadRequestException messages)
  end.

(** Modelled from the spec: [PUT /api/v1/inventory/:productCode/stock], the
    caller-facing [updateStock(productCode, quantity)] of section 6. *)
Definition putStock (code : string) (q : Z) : Promise (option Inventory) :=
  match validateUpdateStockDto q with
  | [] => updateStock code q
  | messages => reject (BadRequestException messages)
  end.

(** The three operations that write to the store, as they reach the
    service: two through HTTP, one through the [inventory.stock.deduct]
    subscription. *)
Inductive Request :=
| CreateItem (dto : CreateInventoryDto)
| UpdateStock (code : string) (q : Z)
| DeductStock (code : string) (q : Z).

(** What the surroundings look like when a request arrives. *)
Record Env := mkEnv {
  env_entropy : list N;
  env_publishFault : option string;
  env_clock : Z;
}.

Definition withEnv (e : Env) (w : World) : World :=
  mkWorld (store w) (published w) (logs w)
    (env_entropy e) (env_publishFault e) (env_clock e) (effects w).

Definition handle (r : Request) (w : World) : World :=
  match r with
  | CreateItem dto => snd (postInventory dto w)
  | UpdateStock code q => snd (putStock code q w)
  | DeductStock code q => snd (deductStock code q w)
  end.

(** Requests are served one after the other. *)
Fixpoint run (reqs : list (Env * Request)) (w : World) : World :=
  match reqs with
  | [] => w
  | (e, r) :: rest => run rest (handle r (withEnv e w))
  end.

(** Every stored quantity is non-negative. *)
Definition nonNegativeStock (st : gmap string InventoryDoc) : Prop :=
  forall code d, st !! code = Some d -> 0 <= doc_quantity d.

(** The product codes [generateProductCode] can build. *)
Definition generatedCode (code : string) : Prop :=
  exists digits : string,
    code = "INV-" ++ digits
    /\ String.length digits = 9%nat
    /\ Js.allChars Js.isDigit digits = true.

(** The two ways [deductStock] refuses a request. *)
Definition isNotFound (o : Outcome unit) : Prop :=
  exists m, o = Throw (NotFoundException m).

Definition isInsufficientStock (o : Outcome unit) : Prop :=
  exists m,
    o = Throw (Error m) /\ String.prefix "Insufficient stock for " m = true.

(** *** Derived notions used in the statements below *)

Definition publishedEntry (event : StockUpdateEvent) : Published :=
  mkPublished INVENTORY (routingKeyOf (eventType event)) event.

(** The event [deductStock] builds from the item it found: the new quantity
    is the rounded difference, the previous one is computed back from it. *)
Definition deductEvent (code : string) (d : InventoryDoc) (q now : Z)
    : StockUpdateEvent :=
  {| eventType := STOCK_REDUCED;
     ev_productCode := code;
     previousQuantity := Js.add (Js.sub (doc_quantity d) q) q;
     newQuantity := Js.sub (doc_quantity d) q;
     timestamp := now;
     productName := doc_name d |}.

Definition deducted (d : InventoryDoc) (q : Z) : InventoryDoc :=
  mkInventoryDoc (doc_name d) (doc_description d) (Js.sub (doc_quantity d) q)
    (doc_price d).

(** A store with one item, ten units in stock, under a broker that takes
    messages ([None]) or whose [publish] throws ([Some m]). *)
Definition widgetWorld (fault : option string) : World :=
  mkWorld {[ "PROD-1" := mkInventoryDoc "Widget" "A widget" 10 (5 # 1) ]}
    [] [] [] fault 0 [].

Definition updated (d : InventoryDoc) (q : Z) : InventoryDoc :=
  mkInventoryDoc (doc_name d) (doc_description d) q (doc_price d).

(** The event [updateStock] builds from the item it found. *)
Definition updateEvent (code : string) (d : InventoryDoc) (q now : Z)
    : StockUpdateEvent :=
  {| eventType := if doc_quantity d <? q then STOCK_ADDED else STOCK_REDUCED;
     ev_productCode := code;
     previousQuantity := doc_quantity d;
     newQuantity := q;
     timestamp := now;
     productName := doc_name d |}.

Definition codeOfDraw (randomNum : N) : string :=
  "INV-" ++ Js.padStart 9 "0" (Js.N_toString randomNum).

(** Only the entropy of [w'] differs from that of [w]. *)
Definition sameButEntropy (w w' : World) : Prop :=
  w' = setEntropy (entropy w') w.

Definition newDoc (dto : CreateInventoryDto) : InventoryDoc :=
  mkInventoryDoc (dto_name dto) (dto_description dto) (dto_quantity dto)
    (dto_price dto).

(** The event [createItem] builds from the document it saved. *)
Definition createEvent (code : string) (dto : CreateInventoryDto) (now : Z)
    : StockUpdateEvent :=
  {| eventType := STOCK_ADDED;
     ev_productCode := code;
     previousQuantity := 0;
     newQuantity := dto_quantity dto;
     timestamp := now;
     productName := dto_name dto |}.

(** The second half of [createItem], from [repository.createItem] on: what
    the call does once the product code is settled. *)
Definition saveAndAnnounce (createDto : CreateInventoryDto) : Promise Inventory :=
  let* savedItem := repository_createItem createDto in
  let* now := newDate in
  let stockEvent :=
    {| eventType := STOCK_ADDED;
       ev_productCode := productCode savedItem;
       previousQuantity := 0;
       newQuantity := quantity savedItem;
       timestamp := now;
       productName := name savedItem |} in
  do* publishStockUpdateEvent stockEvent in
  do* logger_log "Item created" (productCode savedItem) in
  resolve savedItem.

(** A request without a product code, and a world whose first random number
    is taken. *)
Definition gadgetDto : CreateInventoryDto :=
  mkCreateInventoryDto None "Gadget" "A gadget" 100 (2999 # 100).

Definition takenCodeWorld : World :=
  mkWorld {[ "INV-000000005" := mkInventoryDoc "Widget" "A widget" 10 (5 # 1) ]}
    [] [] [5%N; 7%N] None 0 [].

Definition calmEnv : Env := mkEnv [12345%N] None 0.

(** A run that tries to push the stock of a generated item below zero in
    every way the three operations offer. *)
Definition greedyRun : list (Env * Request) :=
  [ (calmEnv, CreateItem gadgetDto);
    (calmEnv, DeductStock "INV-000012345" 60);
    (calmEnv, DeductStock "INV-000012345" 60);
    (calmEnv, UpdateStock "INV-000012345" (-10));
    (calmEnv, DeductStock "INV-000012345" 40);
    (calmEnv, CreateItem (mkCreateInventoryDto (Some "NEG-1") "Bad" "" (-1) (1 # 1))) ].

Definition emptyWorld : World := mkWorld ∅ [] [] [] None 0 [].

(** *** Sequences of calls on the service itself *)

(** The public methods of [InventoryService], called directly. *)
Inductive Call :=
| CallCreateItem (dto : CreateInventoryDto)
| CallUpdateStock (code : string) (q : Z)
| CallGetItem (code : string)
| CallCheckStock (code : string) (q : Z)
| CallDeductStock (code : string) (q : Z).

Definition serve (c : Call) (w : World) : World :=
  match c with
  | CallCreateItem dto => snd (createItem dto w)
  | CallUpdateStock code q => snd (updateStock code q w)
  | CallGetItem code => snd (getItem code w)
  | CallCheckStock code q => snd (checkStock code q w)
  | CallDeductStock code q => snd (deductStock code q w)
  end.

(** Calls are served one after the other, each under the broker, clock and
    random numbers of its moment. *)
Fixpoint serveAll (calls : list (Env * Call)) (w : World) : World :=
  match calls with
  | [] => w
  | (e, c) :: rest => serveAll rest (serve c (withEnv e w))
  end.

(** Two documents that differ in their quantity at most. *)
Definition sameItem (d d' : InventoryDoc) : Prop :=
  doc_name d' = doc_name d
  /\ doc_description d' = doc_description d
  /\ doc_price d' = doc_price d.

(** The [newQuantity] of the last event of the stream that is about the
    product code, if there is one. *)
Definition lastQuantity (code : string) (events : list Published) : option Z :=
  fold_left
    (fun acc p =>
       if String.eqb (ev_productCode (pub_payload p)) code
       then Some (newQuantity (pub_payload p))
       else acc)
    events None.

(** The event stream tells the stock of every item of the store. *)
Definition eventsMatchStore (w : World) : Prop :=
  forall code d,
    store w !! code = Some d ->
    lastQuantity code (published w) = Some (doc_quantity d).

(** The random numbers whose product code the store already has. *)
Definition taken (st : gmap string InventoryDoc) (randomNum : N) : Prop :=
  st !! codeOfDraw randomNum <> None.

(** A call either leaves the store and the event stream alone, or writes one
    document and publishes at most one event, which is about that document. *)
Definition oneWrite (w w' : World) : Prop :=
  (store w' = store w /\ published w' = published w)
  \/ (exists code d' ev,
        store w' = <[code := d']> (store w)
        /\ match store w !! code with
           | Some d => sameItem d d'
           | None => code <> ""
           end
        /\ ev_productCode ev = code
        /\ newQuantity ev = doc_quantity d'
        /\ (published w' = published w
            \/ published w' = (published w ++ [publishedEntry ev])%list)
        /\ (publishFault w = None ->
            published w' = (published w ++ [publishedEntry ev])%list)).

(** The store after the writes of a history, and the messages a history
    sent, in their order. *)
Definition applyWrites (history : list Effect) (st : gmap string InventoryDoc)
    : gmap string InventoryDoc :=
  fold_left
    (fun st effect =>
       match effect with
       | Wrote code doc => <[code := doc]> st
       | Sent _ => st
       end)
    history st.

Fixpoint sentMessages (history : list Effect) : list Published :=
  match history with
  | [] => []
  | Wrote _ _ :: rest => sentMessages rest
  | Sent message :: rest => message :: sentMessages rest
  end.

(** What a call may have done to the store and the broker: nothing; one
    write; or one write and then one message, which is about the document
    written. *)
Definition writeThenSend (history : list Effect) : Prop :=
  history = []
  \/ (exists code doc, history = [Wrote code doc])
  \/ (exists code doc ev,
        history = [Wrote code doc; Sent (publishedEntry ev)]
        /\ ev_productCode ev = code
        /\ newQuantity ev = doc_quantity doc).

(** A store with one item of 100 units, as the tests create it. *)
Definition testProduct : CreateInventoryDto :=
  mkCreateInventoryDto (Some "TEST-123456789") "Test Product" "Test Description"
    100 (2999 # 100).

Definition faultyEnv : Env := mkEnv [] (Some "Channel closed") 0.

(** Calls that rewrite, drain and try to recreate the test product. *)
Definition busyCalls : list (Env * Call) :=
  [ (calmEnv, CallUpdateStock "TEST-123456789" 5);
    (faultyEnv, CallDeductStock "TEST-123456789" 5);
    (calmEnv, CallCreateItem
                (mkCreateInventoryDto (Some "TEST-123456789") "Other" "" 1 (1 # 1)));
    (calmEnv, CallCreateItem
                (mkCreateInventoryDto (Some "") "Nameless" "" 1 (1 # 1)));
    (calmEnv, CallGetItem "TEST-123456789");
    (calmEnv, CallCheckStock "TEST-123456789" 1) ].

Definition testWorld : World := snd (createItem testProduct emptyWorld).

(** Calls under a broker that takes every event. *)
Definition calmCalls : list (Env * Call) :=
  [ (calmEnv, CallCreateItem testProduct);
    (calmEnv, CallCreateItem gadgetDto);
    (calmEnv, CallDeductStock "TEST-123456789" 30);
    (calmEnv, CallUpdateStock "INV-000012345" 7);
    (calmEnv, CallDeductStock "TEST-123456789" 100);
    (calmEnv, CallDeductStock "TEST-123456789" (-5)) ].

End Inventory.

(** ** Order choreography *)

Module Order.

(** Modelled from the spec: [OrderService.createOrder], its DTO, the order
    schema and the order repository are not part of the sources (only the
    order service's tests are).  Everything in this module follows sections
    3, 4.4, 6 and 7 of the specification. *)
Inductive OrderStatus := PENDING | CONFIRMED | FAILED.

Record Order := mkOrder {
  id : nat;
  productCode : string;
  quantity : Z;
  totalPrice : Q;
  status : OrderStatus;
  createdAt : Z;
}.

Definition withStatus (s : OrderStatus) (o : Order) : Order :=
  mkOrder (id o) (productCode o) (quantity o) (totalPrice o) s (createdAt o).

Definition withId (i : nat) (o : Order) : Order :=
  mkOrder i (productCode o) (quantity o) (totalPrice o) (status o) (createdAt o).

(** The error taxonomy of section 7. *)
Inductive OrderError :=
| ValidationError
| NotFound
| Conflict
| InsufficientStock (message : string)
| UpstreamUnavailable
| TimedOut
| InternalError.

(** The reply to [inventory.stock.check], with the unit price that step 3 of
    section 4.4 reads from it. *)
Record StockCheckReply := mkStockCheckReply {
  available : bool;
  message : string;
  currentStock : Z;
  unitPrice : Q;
}.

Inductive DeductFailure := DeductNotFound | DeductInsufficientStock.

(** The reply to [inventory.stock.deduct]. *)
Inductive StockDeductReply :=
| DeductSucceeded
| DeductFailed (why : DeductFailure) (message : string).

(** How a [publishWithResponse] call ends. *)
Inductive RpcResult (A : Type) :=
| Replied (reply : A)
| RpcTimedOut
| RpcNotConnected.
Arguments Replied {A} reply.
Arguments RpcTimedOut {A}.
Arguments RpcNotConnected {A}.

(** A call the broker client has received, with how it ended. *)
Inductive RpcExchange :=
| StockCheckExchange (code : string) (q : Z) (result : RpcResult StockCheckReply)
| StockDeductExchange (code : string) (q : Z) (result : RpcResult StockDeductReply).

(** The order store, the broker client's call log, and what the other side
    of the broker and the store will answer. *)
Record World := mkWorld {
  orders : gmap nat Order;
  nextId : nat;
  calls : list RpcExchange;
  checkReply : string -> Z -> RpcResult StockCheckReply;
  deductReply : string -> Z -> RpcResult StockDeductReply;
  storeUp : bool;
  clock : Z;
}.

Definition Flow (A : Type) : Type := World -> (OrderError + A) * World.

Definition done {A} (a : A) : Flow A := fun w => (inr a, w).
Definition fail {A} (e : OrderError) : Flow A := fun w => (inl e, w).
Definition andThen {A B} (m : Flow A) (k : A -> Flow B) : Flow B :=
  fun w =>
    match m w with
    | (inr a, w') => k a w'
    | (inl e, w') => (inl e, w')
    end.

Notation "'let*' x ':=' m 'in' k" := (andThen m (fun x => k))
  (at level 10, x name, m at level 100, k at level 200).

Definition logCall (x : RpcExchange) (w : World) : World :=
  mkWorld (orders w) (nextId w) (calls w ++ [x]) (checkReply w) (deductReply w)
    (storeUp w) (clock w).

(** Modelled from the spec: [publishWithResponse] on [inventory.stock.check];
    the call is logged with its result. *)
Definition stockCheck (code : string) (q : Z) : Flow (RpcResult StockCheckReply) :=
  fun w =>
    let result := checkReply w code q in
    (inr result, logCall (StockCheckExchange code q result) w).

(** Modelled from the spec: [publishWithResponse] on
    [inventory.stock.deduct]; the call is logged with its result. *)
Definition stockDeduct (code : string) (q : Z) : Flow (RpcResult StockDeductReply) :=
  fun w =>
    let result := deductReply w code q in
    (inr result, logCall (StockDeductExchange code q result) w).

(** Modelled from the spec: the insert into the order store (sections 3 and
    6); the store assigns the id, and the insert may fail (step 5). *)
Definition persist (o : Order) : Flow Order :=
  fun w =>
    if storeUp w then
      let saved := withId (nextId w) o in
      (inr saved,
       mkWorld (<[nextId w := saved]> (orders w)) (S (nextId w)) (calls w)
         (checkReply w) (deductReply w) (storeUp w) (clock w))
    else (inl InternalError, w).

(** Modelled from the spec: step 1 of section 4.4, "quantity must be a
    positive integer and productCode non-empty". *)
Definition validOrder (code : string) (q : Z) : bool :=
  (0 <? q) && negb (String.eqb code "").

(** Modelled from the spec: [createOrder(productCode, quantity)], steps 1 to
    6 of section 4.4.  The order is [PENDING] in memory and [CONFIRMED] when it
    is written. *)
Definition createOrder (code : string) (q : Z) : Flow Order :=
  if negb (validOrder code q) then fail ValidationError
  else
    let* check := stockCheck code q in
    match check with
    | RpcTimedOut | RpcNotConnected => fail UpstreamUnavailable
    | Replied r =>
        if negb (available r) then fail (InsufficientStock (message r))
        else
          fun w =>
            let pending :=
              mkOrder 0 code q (inject_Z q * unitPrice r)%Q PENDING (clock w) in
            (let* deduct := stockDeduct code q in
             match deduct with
             | Replied DeductSucceeded => persist (withStatus CONFIRMED pending)
             | Replied (DeductFailed DeductNotFound _) => fail NotFound
             | Replied (DeductFailed DeductInsufficientStock m) =>
                 fail (InsufficientStock m)
             | RpcTimedOut => fail TimedOut
             | RpcNotConnected => fail UpstreamUnavailable
             end) w
    end.

(** Modelled from the spec: [getOrder(id)], section 4.4. *)
Definition getOrder (i : nat) : Flow Order :=
  fun w =>
    match orders w !! i with
    | Some o => (inr o, w)
    | None => (inl NotFound, w)
    end.

(** A broker and an inventory side that find every product in stock at a
    price of 100. *)
Definition stocked : World :=
  mkWorld ∅ 0 []
    (fun _ _ => Replied (mkStockCheckReply true "Stock available" 100 (100 # 1)))
    (fun _ _ => Replied DeductSucceeded)
    true 0.

(** An inventory side that answers every stock check with "Insufficient
    stock". *)
Definition outOfStock : World :=
  mkWorld ∅ 0 []
    (fun _ _ => Replied (mkStockCheckReply false "Insufficient stock" 0 (100 # 1)))
    (fun _ _ => Replied (DeductFailed DeductInsufficientStock "Insufficient stock"))
    true 0.

End Order.

(** ** The broker client's table of pending requests *)

Module Broker.

(** Modelled from the spec: [RabbitMQService.publishWithResponse] and the
    reply consumer are not part of the sources.  Sections 3 (RPC envelope)
    and 4.2 describe a table of waiters keyed by correlation id, filled by
    [publishWithResponse] and emptied by the reply consumer and by the
    timeout timer, one table operation at a time. *)
Inductive Settlement :=
| Resolved (payload : string)
| RejectedTimedOut.

Record Envelope := mkEnvelope {
  replyChannel : string;
  payload : string;
  timeout : nat;
}.

Record Client := mkClient {
  pending : gmap nat Envelope;
  nextCorrelationId : nat;
  settled : list (nat * Settlement);
  sent : list (nat * Envelope);
}.

Inductive Event :=
| Request (envelope : Envelope)
| ReplyArrives (correlationId : nat) (reply : string)
| TimerExpires (correlationId : nat).

(** Modelled from the spec: [publishWithResponse] (section 4.2): take a fresh
    correlation id, register the waiter under it, publish the request. *)
Definition publishWithResponse (envelope : Envelope) (c : Client) : Client :=
  let correlationId := nextCorrelationId c in
  mkClient (<[correlationId := envelope]> (pending c)) (S correlationId)
    (settled c) (sent c ++ [(correlationId, envelope)]).

(** Modelled from the spec: what the reply consumer and the timeout timer do
    (section 4.2, (a) and (b)): settle the waiter registered under the id, if
    there is one, and remove it; do nothing otherwise. *)
Definition settle (correlationId : nat) (s : Settlement) (c : Client) : Client :=
  match pending c !! correlationId with
  | Some _ =>
      mkClient (delete correlationId (pending c)) (nextCorrelationId c)
        (settled c ++ [(correlationId, s)]) (sent c)
  | None => c
  end.

Definition step (c : Client) (e : Event) : Client :=
  match e with
  | Request envelope => publishWithResponse envelope c
  | ReplyArrives correlationId reply => settle correlationId (Resolved reply) c
  | TimerExpires correlationId => settle correlationId RejectedTimedOut c
  end.

Definition run (events : list Event) (c : Client) : Client :=
  fold_left step events c.

Definition connected : Client := mkClient ∅ 0 [] [].

(** What the caller of the request with this correlation id has received. *)
Definition settlementsOf (correlationId : nat) (c : Client) : list Settlement :=
  map snd (List.filter (fun p => Nat.eqb (fst p) correlationId) (settled c)).

(** Ids are handed out in order; pending ids and settled ids have been
    handed out; no settled id is pending or settled twice. *)
Definition consistent (c : Client) : Prop :=
  (forall i e, pending c !! i = Some e -> (i < nextCorrelationId c)%nat)
  /\ (forall i s, In (i, s) (settled c) ->
        (i < nextCorrelationId c)%nat /\ pending c !! i = None)
  /\ NoDup (map fst (settled c)).

(** Every id handed out is either still pending or has been settled. *)
Definition accounted (c : Client) : Prop :=
  forall i, (i < nextCorrelationId c)%nat ->
    (exists e, pending c !! i = Some e) \/ (exists s, In (i, s) (settled c)).

End Broker.

(** * Properties of the inventory service *)

Import Inventory.

(** ** The event publication step *)

Lemma publishStockUpdateEvent_accepted (event : StockUpdateEvent) (w : World) :
  publishFault w = None ->
  exists w',
    publishStockUpdateEvent event w = (Return tt, w')
    /\ store w' = store w
    /\ published w' = (published w ++ [publishedEntry event])%list
    /\ entropy w' = entropy w /\ publishFault w' = publishFault w
    /\ clock w' = clock w.
Proof.
  intros Hup.
  unfold publishStockUpdateEvent, tryCatch, await, rabbitMQ_publish, logger_log, modify.
  rewrite Hup. simpl. eexists. split; [reflexivity|]. simpl. auto.
Qed.

Lemma publishStockUpdateEvent_refused (event : StockUpdateEvent) (w : World) (m : string) :
  publishFault w = Some m ->
  exists w',
    publishStockUpdateEvent event w = (Throw (BrokerError m), w')
    /\ store w' = store w
    /\ published w' = published w
    /\ logs w' =
         (logs w ++ [mkLogEntry LevelError
                       ("Failed to publish stock update event: " ++ m)
                       "InventoryService"])%list.
Proof.
  intros Hdown.
  unfold publishStockUpdateEvent, tryCatch, await, rabbitMQ_publish, logger_error,
    reject, modify.
  rewrite Hdown. simpl. eexists. split; [reflexivity|]. simpl. auto.
Qed.

Lemma publishStockUpdateEvent_store (event : StockUpdateEvent) (w : World) :
  store (snd (publishStockUpdateEvent event w)) = store w.
Proof.
  destruct (publishFault w) as [m|] eqn:Hf.
  - destruct (publishStockUpdateEvent_refused event w m Hf) as (w' & -> & Hs & _).
    exact Hs.
  - destruct (publishStockUpdateEvent_accepted event w Hf) as (w' & -> & Hs & _).
    exact Hs.
Qed.

(** ** checkStock *)

(** C4. [checkStock(productCode, quantity)] answers
    [{available: false, message: "Item not found in inventory"}] when the store
    has no item under the code; otherwise it answers with
    [available = (quantity <= item.quantity)] and the item's quantity as
    [currentStock].  In both cases the store is what it was before, and nothing
    is published. *)
Theorem checkStock_reply (code : string) (q : Z) (w : World) :
  store (snd (checkStock code q w)) = store w
  /\ published (snd (checkStock code q w)) = published w
  /\ match store w !! code with
     | None =>
         exists r, fst (checkStock code q w) = Return r
           /\ available r = false
           /\ message r = "Item not found in inventory"
     | Some d =>
         exists r, fst (checkStock code q w) = Return r
           /\ available r = (q <=? doc_quantity d)
           /\ currentStock r = doc_quantity d
     end.
Proof.
  unfold checkStock, await, findItemById, logger_log, modify, resolve.
  destruct (store w !! code) as [d|] eqn:Hd; simpl.
  - repeat split; eauto.
  - repeat split; eauto.
Qed.

(** ** Arithmetic on numbers *)

Lemma roundDouble_safe (z : Z) : Js.isSafeInteger z = true -> Js.roundDouble z = z.
Proof. unfold Js.isSafeInteger, Js.roundDouble. intros ->. reflexivity. Qed.

Lemma roundDouble_nonneg (z : Z) : 0 <= z -> 0 <= Js.roundDouble z.
Proof.
  intros Hz. unfold Js.roundDouble.
  destruct (Z.abs z <=? Js.MAX_SAFE_INTEGER); [exact Hz|].
  apply Z.mul_nonneg_nonneg; [apply Z.sgn_nonneg; exact Hz|].
  assert (Hulp : 0 <= 2 ^ (Z.log2 (Z.abs z) - 52)) by (apply Z.pow_nonneg; lia).
  assert (Hlower : 0 <= Z.abs z / 2 ^ (Z.log2 (Z.abs z) - 52)).
  { destruct (Z.eq_dec (2 ^ (Z.log2 (Z.abs z) - 52)) 0) as [->|Hne].
    - rewrite Z.div_0_r. lia.
    - apply Z.div_pos; lia. }
  apply Z.mul_nonneg_nonneg; [|exact Hulp].
  destruct (_ || _); lia.
Qed.

(** Differences and sums of safe integers that are safe integers are
    exact, and adding back what was subtracted gives the number back. *)
Lemma sub_exact (a b : Z) :
  Js.isSafeInteger (a - b) = true -> Js.sub a b = a - b.
Proof. apply roundDouble_safe. Qed.

Lemma add_sub_exact (a b : Z) :
  Js.isSafeInteger a = true -> Js.isSafeInteger (a - b) = true ->
  Js.add (Js.sub a b) b = a.
Proof.
  intros Ha Hab. rewrite (sub_exact a b Hab). unfold Js.add.
  replace (a - b + b) with a by lia. apply roundDouble_safe. exact Ha.
Qed.

(** Beyond the safe integers the arithmetic rounds: one taken from 2^53 + 2
    leaves 2^53, and adding the one back does not give 2^53 + 2. *)
Example sub_rounds :
  Js.sub 9007199254740994 1 = 9007199254740992
  /\ Js.add (Js.sub 9007199254740994 1) 1 = 9007199254740992.
Proof. split; reflexivity. Qed.

(** Likewise one taken from 2^53 + 4 leaves 2^53 + 4, so that two deductions
    of one differ from one deduction of two, and one added to 2^53 leaves
    2^53. *)
Example sub_beyond_safe_integers :
  Js.sub 9007199254740996 1 = 9007199254740996
  /\ Js.sub (Js.sub 9007199254740996 1) 1 = 9007199254740996
  /\ Js.sub 9007199254740996 2 = 9007199254740994
  /\ Js.sub 9007199254740992 (-1) = 9007199254740992.
Proof. repeat split. Qed.

(** Numbers print with as few digits as identify them, in exponent form from
    1e21 on. *)
Example Z_toString_samples :
  Js.Z_toString (-42) = "-42"
  /\ Js.Z_toString 9007199254740994 = "9007199254740994"
  /\ Js.Z_toString (2 ^ 64) = "18446744073709552000"
  /\ Js.Z_toString (10 ^ 21) = "1e+21"
  /\ Js.Z_toString (2 ^ 70) = "1.1805916207174113e+21"
  /\ Js.Z_toString (- 10 ^ 23) = "-1e+23".
Proof. vm_compute. repeat split. Qed.

(** ** deductStock *)

Lemma getItem_found (code : string) (d : InventoryDoc) (w : World) :
  store w !! code = Some d ->
  exists w',
    getItem code w = (Return (ofDoc code d), w')
    /\ store w' = store w /\ published w' = published w
    /\ entropy w' = entropy w /\ publishFault w' = publishFault w
    /\ clock w' = clock w.
Proof.
  intros Hd. unfold getItem, await, findItemById, logger_log, modify, resolve.
  rewrite Hd. simpl. eexists. split; [reflexivity|]. simpl. auto.
Qed.

Lemma getItem_missing (code : string) (w : World) :
  store w !! code = None ->
  getItem code w = (Throw (NotFoundException "Item not found"), w).
Proof.
  intros Hd. unfold getItem, await, findItemById, reject. rewrite Hd. reflexivity.
Qed.

Lemma insufficientStockMessage_prefix (item : Inventory) (q : Z) :
  String.prefix "Insufficient stock for " (insufficientStockMessage item q) = true.
Proof.
  unfold insufficientStockMessage.
  generalize (name item ++ ". Requested: " ++ Js.Z_toString q ++ ", Available: "
                ++ Js.Z_toString (quantity item)).
  generalize "Insufficient stock for ".
  intros s t. induction s as [|c s IH]; simpl.
  - destruct t; reflexivity.
  - destruct (ascii_dec c c) as [_|Hne]; [exact IH|congruence].
Qed.

Lemma deductStock_missing (code : string) (q : Z) (w : World) :
  store w !! code = None ->
  deductStock code q w = (Throw (NotFoundException "Item not found"), w).
Proof.
  intros Hd. unfold deductStock, await. rewrite (getItem_missing _ _ Hd). reflexivity.
Qed.

Lemma deductStock_insufficient (code : string) (q : Z) (d : InventoryDoc) (w : World) :
  store w !! code = Some d -> doc_quantity d < q ->
  exists w',
    deductStock code q w
      = (Throw (Error (insufficientStockMessage (ofDoc code d) q)), w')
    /\ store w' = store w /\ published w' = published w.
Proof.
  intros Hd Hlt. unfold deductStock, await.
  destruct (getItem_found code d w Hd) as (w' & -> & Hs & Hp & _).
  simpl. apply Z.ltb_lt in Hlt. rewrite Hlt. unfold reject.
  eexists. split; [reflexivity|]. auto.
Qed.

Lemma deductStock_enough (code : string) (q : Z) (d : InventoryDoc) (w : World) :
  store w !! code = Some d -> q <= doc_quantity d ->
  store (snd (deductStock code q w)) = <[code := deducted d q]> (store w)
  /\ match publishFault w with
     | None =>
         fst (deductStock code q w) = Return tt
         /\ published (snd (deductStock code q w))
            = (published w ++ [publishedEntry (deductEvent code d q (clock w))])%list
     | Some m =>
         fst (deductStock code q w) = Throw (BrokerError m)
         /\ published (snd (deductStock code q w)) = published w
     end.
Proof.
  intros Hd Hle. unfold deductStock, await.
  destruct (getItem_found code d w Hd) as (w1 & -> & Hs & Hp & He & Hf & Hc).
  simpl. apply Z.ltb_ge in Hle. rewrite Hle.
  unfold save, modify, newDate. simpl.
  set (w2 := writeDoc _ _ w1).
  assert (Hs2 : store w2 = <[code := deducted d q]> (store w))
    by (subst w2; simpl; rewrite Hs; reflexivity).
  assert (Hf2 : publishFault w2 = publishFault w) by (subst w2; simpl; exact Hf).
  assert (Hp2 : published w2 = published w) by (subst w2; simpl; exact Hp).
  rewrite Hc.
  fold (deductEvent code d q (clock w)).
  split.
  - rewrite publishStockUpdateEvent_store. exact Hs2.
  - destruct (publishFault w) as [m|] eqn:Hfw.
    + destruct (publishStockUpdateEvent_refused
                  (deductEvent code d q (clock w)) w2 m Hf2)
        as (w3 & -> & _ & Hp3 & _).
      simpl. split; [reflexivity|]. congruence.
    + destruct (publishStockUpdateEvent_accepted
                  (deductEvent code d q (clock w)) w2 Hf2)
        as (w3 & -> & _ & Hp3 & _).
      simpl. split; [reflexivity|]. congruence.
Qed.

(** Beyond the safe integers [deductStock] rounds: with 2^53 + 2 in stock,
    deducting one stores 2^53, and the event gives 2^53 as the previous
    quantity too. *)
Example deductStock_rounds :
  let w := mkWorld {[ "BIG-1" := mkInventoryDoc "Bulk" "" 9007199254740994 (1 # 1) ]}
             [] [] [] None 0 [] in
  fst (deductStock "BIG-1" 1 w) = Return tt
  /\ store (snd (deductStock "BIG-1" 1 w)) !! "BIG-1"
     = Some (mkInventoryDoc "Bulk" "" 9007199254740992 (1 # 1))
  /\ map (fun p => (previousQuantity (pub_payload p), newQuantity (pub_payload p)))
       (published (snd (deductStock "BIG-1" 1 w)))
     = [(9007199254740992, 9007199254740992)].
Proof. vm_compute. repeat split. Qed.

(** C3, as the code has it.  [deductStock(productCode, quantity)] fails with
    [NotFoundException] exactly when the store has no item under the code, and
    with the insufficient-stock error exactly when the item is there and
    [item.quantity < quantity]; in both cases the store and the event stream
    are what they were.  Otherwise it writes the item back with a new
    quantity, the other fields untouched, and hands the broker a
    [STOCK_REDUCED] event whose [newQuantity] is the quantity written.  The
    quantity written is the difference of the two numbers, and the event's
    [previousQuantity] is the sum of the quantity written and the quantity
    deducted: as long as the stock and the difference are safe integers, these
    are exactly [item.quantity - quantity] and the stock before; beyond them
    both are rounded.  When the broker takes the event the call succeeds, and
    when publishing throws the call fails with that error while the decrement
    stays in the store. *)
Theorem deductStock_outcomes (code : string) (q : Z) (w : World) :
  (isNotFound (fst (deductStock code q w)) <-> store w !! code = None)
  /\ (isInsufficientStock (fst (deductStock code q w))
      <-> exists d, store w !! code = Some d /\ doc_quantity d < q)
  /\ match store w !! code with
     | None =>
         deductStock code q w = (Throw (NotFoundException "Item not found"), w)
     | Some d =>
         if doc_quantity d <? q then
           store (snd (deductStock code q w)) = store w
           /\ published (snd (deductStock code q w)) = published w
         else
           exists d' ev,
             store (snd (deductStock code q w)) = <[code := d']> (store w)
             /\ sameItem d d'
             /\ eventType ev = STOCK_REDUCED
             /\ ev_productCode ev = code
             /\ newQuantity ev = doc_quantity d'
             /\ doc_quantity d' = Js.sub (doc_quantity d) q
             /\ previousQuantity ev = Js.add (doc_quantity d') q
             /\ (Js.isSafeInteger (doc_quantity d) = true ->
                 Js.isSafeInteger (doc_quantity d - q) = true ->
                 doc_quantity d' = doc_quantity d - q
                 /\ previousQuantity ev = doc_quantity d)
             /\ match publishFault w with
                | None =>
                    fst (deductStock code q w) = Return tt
                    /\ published (snd (deductStock code q w))
                       = (published w ++ [publishedEntry ev])%list
                | Some m =>
                    fst (deductStock code q w) = Throw (BrokerError m)
                    /\ published (snd (deductStock code q w)) = published w
                end
     end.
Proof.
  unfold isNotFound, isInsufficientStock.
  destruct (store w !! code) as [d|] eqn:Hd.
  - destruct (Z.ltb_spec (doc_quantity d) q) as [Hlt|Hge].
    + destruct (deductStock_insufficient code q d w Hd Hlt) as (w' & -> & Hs & Hp).
      simpl. split; [|split; [|split]].
      * split; [intros [m Hm]|intros Hm]; discriminate.
      * split; [intros _; exists d; auto|intros _].
        eexists. split; [reflexivity|apply insufficientStockMessage_prefix].
      * exact Hs.
      * exact Hp.
    + destruct (deductStock_enough code q d w Hd Hge) as [Hs Hpub].
      assert (Hr : exists m, fst (deductStock code q w) = Return tt
                             \/ fst (deductStock code q w) = Throw (BrokerError m)).
      { destruct (publishFault w) as [m|]; destruct Hpub as [Hr _].
        - exists m. right. exact Hr.
        - exists "". left. exact Hr. }
      destruct Hr as [m0 Hr].
      split; [|split].
      * split; [intros [m Hm]|intros Hm]; [|discriminate].
        destruct Hr as [Hr|Hr]; rewrite Hr in Hm; discriminate.
      * split; [intros (m & Hm & _)|intros (d' & Hd' & Hlt)].
        -- destruct Hr as [Hr|Hr]; rewrite Hr in Hm; discriminate.
        -- inversion Hd'; subst d'. lia.
      * exists (deducted d q), (deductEvent code d q (clock w)).
        split; [exact Hs|]. split; [repeat split|].
        split; [reflexivity|]. split; [reflexivity|]. split; [reflexivity|].
        split; [reflexivity|]. split; [reflexivity|].
        split; [|exact Hpub].
        intros Hsafe Hdiff. simpl.
        split; [apply sub_exact; exact Hdiff|apply add_sub_exact; assumption].
  - rewrite (deductStock_missing code q w Hd). simpl.
    split; [|split].
    + split; eauto.
    + split; [intros (m & Hm & _)|intros (d & Hd' & _)]; discriminate.
    + reflexivity.
Qed.

Lemma deductStock_outcomes_witness :
  fst (deductStock "PROD-1" 3 (widgetWorld None)) = Return tt
  /\ exists d',
       store (snd (deductStock "PROD-1" 3 (widgetWorld None))) !! "PROD-1" = Some d'
       /\ doc_quantity d' = 7.
Proof.
  destruct (deductStock_outcomes "PROD-1" 3 (widgetWorld None)) as (_ & _ & Hcases).
  assert (Hd : store (widgetWorld None) !! "PROD-1"
               = Some (mkInventoryDoc "Widget" "A widget" 10 (5 # 1)))
    by (vm_compute; reflexivity).
  rewrite Hd in Hcases. simpl in Hcases.
  destruct Hcases as (d' & ev & Hstore & _ & _ & _ & _ & _ & _ & Hexact & Hreply & _).
  split; [exact Hreply|].
  exists d'. split; [rewrite Hstore; apply lookup_insert_eq|].
  exact (proj1 (Hexact eq_refl eq_refl)).
Defined.

(** C3 as stated fails: the item is there with enough stock, yet the call
    does not succeed; the decrement is in the store all the same. *)
Lemma deductStock_publish_failure :
  store (widgetWorld (Some "Channel closed")) !! "PROD-1"
    = Some (mkInventoryDoc "Widget" "A widget" 10 (5 # 1))
  /\ ~ (10 < 3)
  /\ fst (deductStock "PROD-1" 3 (widgetWorld (Some "Channel closed")))
     = Throw (BrokerError "Channel closed")
  /\ fst (deductStock "PROD-1" 3 (widgetWorld (Some "Channel closed"))) <> Return tt
  /\ store (snd (deductStock "PROD-1" 3 (widgetWorld (Some "Channel closed"))))
       !! "PROD-1"
     = Some (mkInventoryDoc "Widget" "A widget" 7 (5 # 1)).
Proof.
  assert (Hr : fst (deductStock "PROD-1" 3 (widgetWorld (Some "Channel closed")))
               = Throw (BrokerError "Channel closed")) by (vm_compute; reflexivity).
  split; [vm_compute; reflexivity|].
  split; [lia|].
  split; [exact Hr|].
  split; [rewrite Hr; discriminate|].
  vm_compute. reflexivity.
Qed.

(** ** updateStock *)

Lemma updateStock_missing (code : string) (q : Z) (w : World) :
  store w !! code = None ->
  updateStock code q w = (Throw (NotFoundException "Item not found"), w).
Proof.
  intros Hd. unfold updateStock, updateStockOver, await, findItemById, reject.
  rewrite Hd. reflexivity.
Qed.

Lemma updateStock_found (code : string) (q : Z) (d : InventoryDoc) (w : World) :
  store w !! code = Some d ->
  store (snd (updateStock code q w)) = <[code := updated d q]> (store w)
  /\ match publishFault w with
     | None =>
         fst (updateStock code q w) = Return (Some (ofDoc code (updated d q)))
         /\ published (snd (updateStock code q w))
            = (published w ++ [publishedEntry (updateEvent code d q (clock w))])%list
     | Some m =>
         fst (updateStock code q w) = Throw (BrokerError m)
         /\ published (snd (updateStock code q w)) = published w
     end.
Proof.
  intros Hd.
  unfold updateStock, updateStockOver, await, findItemById, repository_updateStock,
    newDate.
  rewrite Hd. simpl. rewrite Hd. simpl.
  fold (updated d q). fold (updateEvent code d q (clock w)).
  set (w2 := writeDoc _ _ w).
  assert (Hf2 : publishFault w2 = publishFault w) by reflexivity.
  split.
  - destruct (publishStockUpdateEvent (updateEvent code d q (clock w)) w2)
      as [[u|e|] w3] eqn:Hp;
      pose proof (publishStockUpdateEvent_store (updateEvent code d q (clock w)) w2)
        as Hs; rewrite Hp in Hs; simpl in *; exact Hs.
  - destruct (publishFault w) as [m|] eqn:Hfw.
    + destruct (publishStockUpdateEvent_refused
                  (updateEvent code d q (clock w)) w2 m Hf2)
        as (w3 & -> & _ & Hp3 & _).
      simpl. split; [reflexivity|]. exact Hp3.
    + destruct (publishStockUpdateEvent_accepted
                  (updateEvent code d q (clock w)) w2 Hf2)
        as (w3 & -> & _ & Hp3 & _).
      simpl. split; [reflexivity|]. exact Hp3.
Qed.

(** C10, as the code has it.  For an item in the store,
    [updateStock(productCode, quantity)] writes exactly the supplied quantity
    (not a delta) and leaves the item's other fields alone; when the broker
    takes the stock event it returns the item with the new quantity, and when
    publishing throws it fails with that error, the write staying in place. *)
Theorem updateStock_assigns (code : string) (q : Z) (d : InventoryDoc) (w : World) :
  store w !! code = Some d ->
  store (snd (updateStock code q w)) !! code
    = Some (mkInventoryDoc (doc_name d) (doc_description d) q (doc_price d))
  /\ (forall other, other <> code ->
        store (snd (updateStock code q w)) !! other = store w !! other)
  /\ match publishFault w with
     | None =>
         fst (updateStock code q w)
         = Return (Some (mkInventory code (doc_name d) (doc_description d) q
                           (doc_price d)))
     | Some m => fst (updateStock code q w) = Throw (BrokerError m)
     end.
Proof.
  intros Hd. destruct (updateStock_found code q d w Hd) as [Hs Hr].
  rewrite Hs. split; [apply lookup_insert_eq|]. split.
  - intros other Hne. apply lookup_insert_ne. congruence.
  - destruct (publishFault w); destruct Hr as [Hr _]; exact Hr.
Qed.

Lemma updateStock_assigns_witness :
  store (snd (updateStock "PROD-1" 4 (widgetWorld None))) !! "PROD-1"
    = Some (mkInventoryDoc "Widget" "A widget" 4 (5 # 1)).
Proof.
  apply (updateStock_assigns "PROD-1" 4
           (mkInventoryDoc "Widget" "A widget" 10 (5 # 1)) (widgetWorld None)).
  vm_compute. reflexivity.
Defined.

(** C10 as stated fails: the item exists, the quantity is written, but no
    item is returned. *)
Lemma updateStock_publish_failure :
  store (widgetWorld (Some "Channel closed")) !! "PROD-1"
    = Some (mkInventoryDoc "Widget" "A widget" 10 (5 # 1))
  /\ fst (updateStock "PROD-1" 4 (widgetWorld (Some "Channel closed")))
     = Throw (BrokerError "Channel closed")
  /\ (forall item,
        fst (updateStock "PROD-1" 4 (widgetWorld (Some "Channel closed")))
        <> Return item)
  /\ store (snd (updateStock "PROD-1" 4 (widgetWorld (Some "Channel closed"))))
       !! "PROD-1"
     = Some (mkInventoryDoc "Widget" "A widget" 4 (5 # 1)).
Proof.
  assert (Hr : fst (updateStock "PROD-1" 4 (widgetWorld (Some "Channel closed")))
               = Throw (BrokerError "Channel closed")) by (vm_compute; reflexivity).
  split; [vm_compute; reflexivity|].
  split; [exact Hr|].
  split; [intros item; rewrite Hr; discriminate|].
  vm_compute. reflexivity.
Qed.

(** ** Product code generation *)

Lemma sameButEntropy_refl (w : World) : sameButEntropy w w.
Proof. destruct w; reflexivity. Qed.

Lemma sameButEntropy_trans (w1 w2 w3 : World) :
  sameButEntropy w1 w2 -> sameButEntropy w2 w3 -> sameButEntropy w1 w3.
Proof.
  unfold sameButEntropy. intros H12 H23. rewrite H23, H12.
  destruct w1; reflexivity.
Qed.

Lemma sameButEntropy_fields (w w' : World) :
  sameButEntropy w w' ->
  store w' = store w /\ published w' = published w /\ logs w' = logs w
  /\ publishFault w' = publishFault w /\ clock w' = clock w.
Proof. intros ->. simpl. auto. Qed.

Lemma generateUniqueProductCode_loop_spec (fuel : nat) :
  forall w,
    match generateUniqueProductCode_loop fuel w with
    | (Return code, w') =>
        store w !! code = None
        /\ (exists randomNum, In randomNum (entropy w) /\ code = codeOfDraw randomNum)
        /\ sameButEntropy w w'
    | (Throw _, _) => False
    | (Diverge, w') => sameButEntropy w w'
    end.
Proof.
  induction fuel as [|fuel IH]; intros w; simpl.
  - apply sameButEntropy_refl.
  - unfold await, generateProductCode.
    destruct (entropy w) as [|r rest] eqn:He.
    + apply sameButEntropy_refl.
    + unfold findItemById. simpl. fold (codeOfDraw r).
      destruct (store w !! codeOfDraw r) as [d|] eqn:Hd; simpl.
      * specialize (IH (setEntropy rest w)).
        destruct (generateUniqueProductCode_loop fuel (setEntropy rest w))
          as [[code|e|] w'].
        -- destruct IH as (Hfree & (r' & Hin & Hcode) & Hsame).
           split; [exact Hfree|]. split.
           ++ exists r'. split; [right; exact Hin|exact Hcode].
           ++ eapply sameButEntropy_trans; [|exact Hsame]. reflexivity.
        -- exact IH.
        -- eapply sameButEntropy_trans; [|exact IH]. reflexivity.
      * unfold resolve. split; [exact Hd|]. split.
        -- exists r. split; [left; reflexivity|reflexivity].
        -- reflexivity.
Qed.

(** The loop ends as soon as the random numbers yield a code the store does
    not have. *)
Lemma generateUniqueProductCode_loop_returns (fuel : nat) :
  forall w,
    (length (entropy w) < fuel)%nat ->
    (exists randomNum,
        In randomNum (entropy w) /\ store w !! codeOfDraw randomNum = None) ->
    exists code w', generateUniqueProductCode_loop fuel w = (Return code, w').
Proof.
  induction fuel as [|fuel IH]; intros w Hlen (r0 & Hin & Hfree); [lia|].
  simpl. unfold await, generateProductCode.
  destruct (entropy w) as [|r rest] eqn:He; [destruct Hin|].
  unfold findItemById. simpl. fold (codeOfDraw r).
  destruct (store w !! codeOfDraw r) as [d|] eqn:Hd; simpl.
  - apply IH.
    + simpl in *. lia.
    + exists r0. simpl. destruct Hin as [->|Hin]; [congruence|]. auto.
  - unfold resolve. eauto.
Qed.

(** ** createItem *)

Lemma saveAndAnnounce_fresh (code : string) (dto : CreateInventoryDto) (w : World) :
  dto_productCode dto = Some code ->
  store w !! code = None ->
  store (snd (saveAndAnnounce dto w)) = <[code := newDoc dto]> (store w)
  /\ match publishFault w with
     | None =>
         fst (saveAndAnnounce dto w) = Return (ofDoc code (newDoc dto))
         /\ published (snd (saveAndAnnounce dto w))
            = (published w ++ [publishedEntry (createEvent code dto (clock w))])%list
     | Some m =>
         fst (saveAndAnnounce dto w) = Throw (BrokerError m)
         /\ published (snd (saveAndAnnounce dto w)) = published w
     end.
Proof.
  intros Hcode Hfree.
  unfold saveAndAnnounce, await, repository_createItem, newDate.
  rewrite Hcode, Hfree. simpl.
  fold (newDoc dto). fold (createEvent code dto (clock w)).
  set (w2 := writeDoc _ _ w).
  assert (Hf2 : publishFault w2 = publishFault w) by reflexivity.
  split.
  - destruct (publishStockUpdateEvent (createEvent code dto (clock w)) w2)
      as [[u|e|] w3] eqn:Hp;
      pose proof (publishStockUpdateEvent_store (createEvent code dto (clock w)) w2)
        as Hs; rewrite Hp in Hs; simpl in *; exact Hs.
  - destruct (publishFault w) as [m|] eqn:Hfw.
    + destruct (publishStockUpdateEvent_refused
                  (createEvent code dto (clock w)) w2 m Hf2)
        as (w3 & -> & _ & Hp3 & _).
      simpl. split; [reflexivity|]. exact Hp3.
    + destruct (publishStockUpdateEvent_accepted
                  (createEvent code dto (clock w)) w2 Hf2)
        as (w3 & -> & _ & Hp3 & _).
      simpl. split; [reflexivity|]. exact Hp3.
Qed.

Lemma createItem_supplied (code : string) (dto : CreateInventoryDto) (w : World) :
  dto_productCode dto = Some code -> code <> "" ->
  createItem dto w
  = match store w !! code with
    | Some _ =>
        (Throw (ConflictException "Item with this product code already exists"), w)
    | None => saveAndAnnounce dto w
    end.
Proof.
  intros Hcode Hne. unfold createItem, createItemOver. rewrite Hcode.
  destruct code as [|c code]; [congruence|].
  unfold await at 1. unfold await at 1. unfold findItemById.
  destruct (store w !! String c code); reflexivity.
Qed.

Lemma createItem_generated (dto : CreateInventoryDto) (w : World) :
  Js.truthy (dto_productCode dto) = false ->
  createItem dto w
  = match generateUniqueProductCode w with
    | (Return code, w') => saveAndAnnounce (withProductCode code dto) w'
    | (Throw e, w') => (Throw e, w')
    | (Diverge, w') => (Diverge, w')
    end.
Proof.
  intros Hfalsy. unfold createItem, createItemOver.
  destruct (dto_productCode dto) as [[|c code]|]; try discriminate;
    unfold await at 1; unfold await at 1;
    destruct (generateUniqueProductCode w) as [[code'|e|] w']; reflexivity.
Qed.

(** ** Numbers as decimal strings *)

Example N_toString_zero : Js.N_toString 0 = "0".
Proof. reflexivity. Qed.

Example N_toString_sample : Js.N_toString 1234567 = "1234567".
Proof. reflexivity. Qed.

Example padStart_sample : Js.padStart 9 "0" (Js.N_toString 1234567) = "001234567".
Proof. reflexivity. Qed.

Example padStart_long : Js.padStart 9 "0" "1234567890" = "1234567890".
Proof. reflexivity. Qed.

Lemma digitChar_value (d : N) :
  (d < 10)%N -> (N_of_ascii (Js.digitChar d) - 48 = d)%N.
Proof.
  intros Hd. unfold Js.digitChar. rewrite N_ascii_embedding by lia. lia.
Qed.

Lemma digitsRev_value (fuel : nat) :
  forall n, (n < 2 ^ N.of_nat fuel)%N -> Js.valueRev (Js.digitsRev fuel n) = n.
Proof.
  induction fuel as [|fuel IH]; intros n Hn.
  - simpl in Hn. assert (n = 0%N) by lia. subst n. reflexivity.
  - simpl. destruct (N.ltb_spec n 10) as [Hlt|Hge]; simpl.
    + rewrite digitChar_value by exact Hlt. lia.
    + rewrite digitChar_value by (apply N.mod_lt; lia).
      rewrite IH.
      * pose proof (N.div_mod n 10). lia.
      * replace (N.of_nat (S fuel)) with (N.succ (N.of_nat fuel)) in Hn by lia.
        rewrite N.pow_succ_r' in Hn.
        apply N.Div0.div_lt_upper_bound. lia.
Qed.

(** [N_toString] loses no digit: reading its result back gives the number. *)
Lemma N_toString_value (n : N) :
  Js.valueRev (rev (list_ascii_of_string (Js.N_toString n))) = n.
Proof.
  unfold Js.N_toString.
  rewrite list_ascii_of_string_of_list_ascii, rev_involutive.
  apply digitsRev_value.
  destruct n as [|p]; [simpl; lia|].
  replace (N.of_nat (S (N.to_nat (N.log2 (N.pos p)))))
    with (N.succ (N.log2 (N.pos p))) by lia.
  apply N.log2_spec. lia.
Qed.

(** ** The shape of generated product codes *)

Lemma string_length_append (s1 s2 : string) :
  String.length (s1 ++ s2) = (String.length s1 + String.length s2)%nat.
Proof. induction s1 as [|c s1 IH]; simpl; [reflexivity|]. rewrite IH. reflexivity. Qed.

Lemma allChars_append (p : ascii -> bool) (s1 s2 : string) :
  Js.allChars p (s1 ++ s2) = Js.allChars p s1 && Js.allChars p s2.
Proof.
  induction s1 as [|c s1 IH]; simpl; [reflexivity|].
  rewrite IH. destruct (p c); reflexivity.
Qed.

Lemma string_of_list_ascii_length (l : list ascii) :
  String.length (string_of_list_ascii l) = length l.
Proof. induction l as [|c l IH]; simpl; [reflexivity|]. rewrite IH. reflexivity. Qed.

Lemma allChars_string_of_list_ascii (p : ascii -> bool) (l : list ascii) :
  Js.allChars p (string_of_list_ascii l) = forallb p l.
Proof. induction l as [|c l IH]; simpl; [reflexivity|]. rewrite IH. reflexivity. Qed.

Lemma repeatChar_length (n : nat) (c : ascii) :
  String.length (Js.repeatChar n c) = n.
Proof. induction n as [|n IH]; simpl; [reflexivity|]. rewrite IH. reflexivity. Qed.

Lemma allChars_repeatChar (p : ascii -> bool) (n : nat) (c : ascii) :
  p c = true -> Js.allChars p (Js.repeatChar n c) = true.
Proof. intros Hc. induction n as [|n IH]; simpl; [reflexivity|]. rewrite Hc, IH. reflexivity. Qed.

Lemma isDigit_digitChar (d : N) : (d < 10)%N -> Js.isDigit (Js.digitChar d) = true.
Proof.
  intros Hd.
  assert (Hcases : (d = 0 \/ d = 1 \/ d = 2 \/ d = 3 \/ d = 4 \/ d = 5 \/ d = 6
                    \/ d = 7 \/ d = 8 \/ d = 9)%N) by lia.
  repeat (destruct Hcases as [->|Hcases]; [reflexivity|]).
  subst d. reflexivity.
Qed.

Lemma digitsRev_digits (fuel : nat) :
  forall n, forallb Js.isDigit (Js.digitsRev fuel n) = true.
Proof.
  induction fuel as [|fuel IH]; intros n; simpl; [reflexivity|].
  destruct (N.ltb_spec n 10) as [Hlt|Hge]; simpl.
  - rewrite isDigit_digitChar by exact Hlt. reflexivity.
  - rewrite isDigit_digitChar by (apply N.mod_lt; lia). apply IH.
Qed.

Lemma digitsRev_length (fuel : nat) :
  forall n k,
    (n < 10 ^ N.of_nat k)%N -> (1 <= k)%nat ->
    (length (Js.digitsRev fuel n) <= k)%nat.
Proof.
  induction fuel as [|fuel IH]; intros n k Hn Hk; simpl; [lia|].
  destruct (N.ltb_spec n 10) as [Hlt|Hge]; simpl; [lia|].
  destruct k as [|[|k]]; [lia|idtac|idtac].
  - change (10 ^ N.of_nat 1)%N with 10%N in Hn. lia.
  - apply le_n_S. apply IH; [|lia].
    replace (N.of_nat (S (S k))) with (N.succ (N.of_nat (S k))) in Hn by lia.
    rewrite N.pow_succ_r' in Hn.
    apply N.Div0.div_lt_upper_bound. exact Hn.
Qed.

Lemma N_toString_length (n : N) :
  (n < 1000000000)%N -> (String.length (Js.N_toString n) <= 9)%nat.
Proof.
  intros Hn. unfold Js.N_toString.
  rewrite string_of_list_ascii_length, length_rev.
  apply digitsRev_length; [exact Hn|lia].
Qed.

Lemma N_toString_digits (n : N) : Js.allChars Js.isDigit (Js.N_toString n) = true.
Proof.
  unfold Js.N_toString. rewrite allChars_string_of_list_ascii.
  apply forallb_forall. intros c Hc. apply in_rev in Hc.
  pose proof (digitsRev_digits (S (N.to_nat (N.log2 n))) n) as Hall.
  rewrite forallb_forall in Hall. apply Hall. exact Hc.
Qed.

Lemma padStart_length (target : nat) (pad : ascii) (s : string) :
  (String.length s <= target)%nat ->
  String.length (Js.padStart target pad s) = target.
Proof.
  intros Hs. unfold Js.padStart.
  rewrite string_length_append, repeatChar_length. lia.
Qed.

Lemma codeOfDraw_generated (randomNum : N) :
  (randomNum < 1000000000)%N -> generatedCode (codeOfDraw randomNum).
Proof.
  intros Hr. exists (Js.padStart 9 "0" (Js.N_toString randomNum)).
  split; [reflexivity|]. split.
  - apply padStart_length. apply N_toString_length. exact Hr.
  - unfold Js.padStart. rewrite allChars_append.
    rewrite allChars_repeatChar by reflexivity.
    rewrite N_toString_digits. reflexivity.
Qed.

(** C9. When [createItem] is called without a product code and returns an
    item, fetching that item by the returned code succeeds and gives back the
    name, quantity and price of the request; the code is ['INV-'] followed by
    nine decimal digits, and the store had no item under it.  The call does
    return whenever the broker takes the event and the random numbers yield a
    code that is not in the store. *)
Theorem createItem_generated_roundtrip (dto : CreateInventoryDto) (w : World) :
  Js.truthy (dto_productCode dto) = false ->
  Forall (fun randomNum => (randomNum < 1000000000)%N) (entropy w) ->
  (forall item w',
      createItem dto w = (Return item, w') ->
      (exists w'', getItem (productCode item) w' = (Return item, w''))
      /\ name item = dto_name dto
      /\ quantity item = dto_quantity dto
      /\ price item = dto_price dto
      /\ generatedCode (productCode item)
      /\ store w !! productCode item = None)
  /\ (publishFault w = None ->
      (exists randomNum,
          In randomNum (entropy w) /\ store w !! codeOfDraw randomNum = None) ->
      exists item w', createItem dto w = (Return item, w')).
Proof.
  intros Hfalsy Hrange.
  rewrite (createItem_generated dto w Hfalsy).
  unfold generateUniqueProductCode.
  pose proof (generateUniqueProductCode_loop_spec (S (length (entropy w))) w) as Hloop.
  split.
  - intros item w' Hrun.
    destruct (generateUniqueProductCode_loop (S (length (entropy w))) w)
      as [[code|e|] w1]; try discriminate.
    destruct Hloop as (Hfree & (r & Hin & Hcode) & Hsame).
    apply sameButEntropy_fields in Hsame as (Hs1 & _ & _ & Hf1 & _).
    assert (Hfree1 : store w1 !! code = None) by (rewrite Hs1; exact Hfree).
    destruct (saveAndAnnounce_fresh code (withProductCode code dto) w1 eq_refl Hfree1)
      as [Hstore Hres].
    rewrite Hrun in Hstore, Hres. simpl in Hstore, Hres.
    destruct (publishFault w1) as [m|]; destruct Hres as [Hres _];
      [discriminate|].
    injection Hres as ->. simpl.
    split; [|split; [reflexivity|split; [reflexivity|split; [reflexivity|split]]]].
    + assert (Hd : store w' !! code = Some (newDoc (withProductCode code dto)))
        by (rewrite Hstore; apply lookup_insert_eq).
      destruct (getItem_found code _ w' Hd) as (w'' & Hget & _).
      exists w''. exact Hget.
    + subst code. apply codeOfDraw_generated.
      rewrite List.Forall_forall in Hrange. apply Hrange. exact Hin.
    + exact Hfree.
  - intros Hup Hfresh.
    destruct (generateUniqueProductCode_loop_returns (S (length (entropy w))) w
                (Nat.lt_succ_diag_r _) Hfresh) as (code & w1 & Hgen).
    rewrite Hgen in Hloop |- *.
    destruct Hloop as (Hfree & _ & Hsame).
    apply sameButEntropy_fields in Hsame as (Hs1 & _ & _ & Hf1 & _).
    assert (Hfree1 : store w1 !! code = None) by (rewrite Hs1; exact Hfree).
    destruct (saveAndAnnounce_fresh code (withProductCode code dto) w1 eq_refl Hfree1)
      as [_ Hres].
    rewrite Hf1, Hup in Hres. destruct Hres as [Hres _].
    destruct (saveAndAnnounce (withProductCode code dto) w1) as [o w'].
    simpl in Hres. subst o. eauto.
Qed.

Lemma createItem_generated_roundtrip_witness :
  exists item w',
    createItem gadgetDto takenCodeWorld = (Return item, w')
    /\ (exists w'', getItem (productCode item) w' = (Return item, w''))
    /\ generatedCode (productCode item).
Proof.
  assert (Hrange : Forall (fun randomNum => (randomNum < 1000000000)%N)
                     (entropy takenCodeWorld)).
  { repeat constructor. }
  destruct (createItem_generated_roundtrip gadgetDto takenCodeWorld eq_refl Hrange)
    as [Hround Hreturns].
  destruct (Hreturns eq_refl) as (item & w' & Hrun).
  { exists 7%N. split; [right; left; reflexivity|vm_compute; reflexivity]. }
  exists item, w'. split; [exact Hrun|].
  destruct (Hround item w' Hrun) as (Hget & _ & _ & _ & Hshape & _).
  split; [exact Hget|exact Hshape].
Defined.

(** Every run of [createItem] either leaves the store and the event stream
    alone and returns no item, or writes one new document and then tries to
    publish its event. *)
Lemma createItem_cases (dto : CreateInventoryDto) (w : World) :
  (store (snd (createItem dto w)) = store w
   /\ published (snd (createItem dto w)) = published w
   /\ forall item, fst (createItem dto w) <> Return item)
  \/ (exists code,
       store w !! code = None
       /\ store (snd (createItem dto w)) = <[code := newDoc dto]> (store w)
       /\ match publishFault w with
          | None =>
              fst (createItem dto w) = Return (ofDoc code (newDoc dto))
              /\ published (snd (createItem dto w))
                 = (published w ++ [publishedEntry (createEvent code dto (clock w))])%list
          | Some m =>
              fst (createItem dto w) = Throw (BrokerError m)
              /\ published (snd (createItem dto w)) = published w
          end).
Proof.
  destruct (Js.truthy (dto_productCode dto)) eqn:Htruthy.
  - destruct (dto_productCode dto) as [[|c code]|] eqn:Hcode; try discriminate.
    rewrite (createItem_supplied (String c code) dto w Hcode) by discriminate.
    destruct (store w !! String c code) as [d|] eqn:Hd.
    + left. simpl. repeat split; intros; discriminate.
    + right. exists (String c code). split; [exact Hd|].
      exact (saveAndAnnounce_fresh (String c code) dto w Hcode Hd).
  - rewrite (createItem_generated dto w Htruthy). unfold generateUniqueProductCode.
    pose proof (generateUniqueProductCode_loop_spec (S (length (entropy w))) w)
      as Hloop.
    destruct (generateUniqueProductCode_loop (S (length (entropy w))) w)
      as [[code|e|] w1]; [|destruct Hloop|].
    + destruct Hloop as (Hfree & _ & Hsame).
      apply sameButEntropy_fields in Hsame as (Hs1 & Hp1 & _ & Hf1 & Hc1).
      assert (Hfree1 : store w1 !! code = None) by (rewrite Hs1; exact Hfree).
      right. exists code. split; [exact Hfree|].
      pose proof (saveAndAnnounce_fresh code (withProductCode code dto) w1
                    eq_refl Hfree1) as Hsave.
      rewrite Hs1, Hp1, Hf1, Hc1 in Hsave. exact Hsave.
    + apply sameButEntropy_fields in Hloop as (Hs1 & Hp1 & _).
      left. simpl. repeat split; try assumption. intros; discriminate.
Qed.

(** ** The order of store writes and messages *)

Lemma publishStockUpdateEvent_run (event : StockUpdateEvent) (w : World) :
  publishStockUpdateEvent event w
  = match publishFault w with
    | None =>
        (Return tt,
         setLogs
           (logs w ++ [mkLogEntry LevelLog
                         ("Published " ++ eventTypeValue (eventType event)
                            ++ " event for product " ++ ev_productCode event)
                         "InventoryService"])
           (takeMessage (publishedEntry event) w))
    | Some m =>
        (Throw (BrokerError m),
         setLogs
           (logs w ++ [mkLogEntry LevelError
                         ("Failed to publish stock update event: " ++ m)
                         "InventoryService"])
           w)
    end.
Proof.
  unfold publishStockUpdateEvent, tryCatch, await, rabbitMQ_publish, logger_log,
    logger_error, reject, modify.
  destruct (publishFault w); reflexivity.
Qed.

Lemma sameButEntropy_effects (w w' : World) :
  sameButEntropy w w' -> effects w' = effects w.
Proof. intros ->. reflexivity. Qed.

Lemma saveAndAnnounce_effects (code : string) (dto : CreateInventoryDto) (w : World) :
  dto_productCode dto = Some code ->
  store w !! code = None ->
  effects (snd (saveAndAnnounce dto w))
  = (effects w
       ++ Wrote code (newDoc dto)
          :: match publishFault w with
             | None => [Sent (publishedEntry (createEvent code dto (clock w)))]
             | Some _ => []
             end)%list.
Proof.
  intros Hcode Hfree.
  unfold saveAndAnnounce, await, repository_createItem, newDate.
  rewrite Hcode, Hfree. simpl.
  fold (newDoc dto). fold (createEvent code dto (clock w)).
  rewrite publishStockUpdateEvent_run. simpl.
  destruct (publishFault w); simpl; rewrite <- ?app_assoc; reflexivity.
Qed.

Lemma updateStock_effects (code : string) (q : Z) (d : InventoryDoc) (w : World) :
  store w !! code = Some d ->
  effects (snd (updateStock code q w))
  = (effects w
       ++ Wrote code (updated d q)
          :: match publishFault w with
             | None => [Sent (publishedEntry (updateEvent code d q (clock w)))]
             | Some _ => []
             end)%list.
Proof.
  intros Hd.
  unfold updateStock, updateStockOver, await, findItemById, repository_updateStock,
    newDate.
  rewrite Hd. simpl. rewrite Hd. simpl.
  fold (updated d q). fold (updateEvent code d q (clock w)).
  rewrite publishStockUpdateEvent_run. simpl.
  destruct (publishFault w); simpl; rewrite <- ?app_assoc; reflexivity.
Qed.

(** Every run of [createItem], with its history: nothing written and nothing
    sent, or one new document written and then its event offered to the
    broker. *)
Lemma createItem_trace (dto : CreateInventoryDto) (w : World) :
  (store (snd (createItem dto w)) = store w
   /\ published (snd (createItem dto w)) = published w
   /\ effects (snd (createItem dto w)) = effects w
   /\ forall item, fst (createItem dto w) <> Return item)
  \/ (exists code,
       store w !! code = None
       /\ store (snd (createItem dto w)) = <[code := newDoc dto]> (store w)
       /\ match publishFault w with
          | None =>
              fst (createItem dto w) = Return (ofDoc code (newDoc dto))
              /\ published (snd (createItem dto w))
                 = (published w ++ [publishedEntry (createEvent code dto (clock w))])%list
              /\ effects (snd (createItem dto w))
                 = (effects w
                      ++ [Wrote code (newDoc dto);
                          Sent (publishedEntry (createEvent code dto (clock w)))])%list
          | Some m =>
              fst (createItem dto w) = Throw (BrokerError m)
              /\ published (snd (createItem dto w)) = published w
              /\ effects (snd (createItem dto w))
                 = (effects w ++ [Wrote code (newDoc dto)])%list
          end).
Proof.
  destruct (Js.truthy (dto_productCode dto)) eqn:Htruthy.
  - destruct (dto_productCode dto) as [[|c code]|] eqn:Hcode; try discriminate.
    rewrite (createItem_supplied (String c code) dto w Hcode) by discriminate.
    destruct (store w !! String c code) as [d|] eqn:Hd.
    + left. simpl. repeat split; intros; discriminate.
    + right. exists (String c code). split; [exact Hd|].
      destruct (saveAndAnnounce_fresh (String c code) dto w Hcode Hd) as [Hs Hres].
      pose proof (saveAndAnnounce_effects (String c code) dto w Hcode Hd) as Heff.
      split; [exact Hs|].
      destruct (publishFault w); destruct Hres as [Hres Hp]; auto.
  - rewrite (createItem_generated dto w Htruthy). unfold generateUniqueProductCode.
    pose proof (generateUniqueProductCode_loop_spec (S (length (entropy w))) w)
      as Hloop.
    destruct (generateUniqueProductCode_loop (S (length (entropy w))) w)
      as [[code|e|] w1]; [|destruct Hloop|].
    + destruct Hloop as (Hfree & _ & Hsame).
      pose proof (sameButEntropy_effects _ _ Hsame) as He1.
      apply sameButEntropy_fields in Hsame as (Hs1 & Hp1 & _ & Hf1 & Hc1).
      assert (Hfree1 : store w1 !! code = None) by (rewrite Hs1; exact Hfree).
      right. exists code. split; [exact Hfree|].
      destruct (saveAndAnnounce_fresh code (withProductCode code dto) w1
                  eq_refl Hfree1) as [Hs Hres].
      pose proof (saveAndAnnounce_effects code (withProductCode code dto) w1
                    eq_refl Hfree1) as Heff.
      rewrite Hs1, Hp1, Hf1, Hc1 in *. rewrite He1 in Heff.
      split; [exact Hs|].
      destruct (publishFault w); destruct Hres as [Hres Hp]; auto.
    + pose proof (sameButEntropy_effects _ _ Hloop) as He1.
      apply sameButEntropy_fields in Hloop as (Hs1 & Hp1 & _).
      left. simpl. repeat split; try assumption. intros; discriminate.
Qed.

(** When the repository write throws, the call ends there, in the world the
    write left: the event is neither built nor offered to the broker. *)
Lemma updateStockOver_write_fails
    (write : string -> Z -> Promise (option Inventory)) (code : string) (q : Z)
    (d : InventoryDoc) (w w' : World) (e : Exception) :
  store w !! code = Some d ->
  write code q w = (Throw e, w') ->
  updateStockOver write code q w = (Throw e, w').
Proof.
  intros Hd Hwrite. unfold updateStockOver, await, findItemById.
  rewrite Hd. simpl. rewrite Hwrite. reflexivity.
Qed.

Lemma createItemOver_supplied_write_fails
    (write : CreateInventoryDto -> Promise Inventory) (dto : CreateInventoryDto)
    (code : string) (w w' : World) (e : Exception) :
  dto_productCode dto = Some code -> code <> "" ->
  store w !! code = None ->
  write dto w = (Throw e, w') ->
  createItemOver write dto w = (Throw e, w').
Proof.
  intros Hcode Hne Hfree Hwrite. unfold createItemOver. rewrite Hcode.
  destruct code as [|c code]; [congruence|].
  unfold await, findItemById. rewrite Hfree. simpl. rewrite Hwrite. reflexivity.
Qed.

Lemma createItemOver_generated_write_fails
    (write : CreateInventoryDto -> Promise Inventory) (dto : CreateInventoryDto)
    (code : string) (w w1 w' : World) (e : Exception) :
  Js.truthy (dto_productCode dto) = false ->
  generateUniqueProductCode w = (Return code, w1) ->
  write (withProductCode code dto) w1 = (Throw e, w') ->
  createItemOver write dto w = (Throw e, w').
Proof.
  intros Hfalsy Hgen Hwrite. unfold createItemOver.
  destruct (dto_productCode dto) as [[|c code0]|]; try discriminate;
    unfold await at 1; unfold await at 1; rewrite Hgen; unfold resolve;
    unfold await; rewrite Hwrite; reflexivity.
Qed.

(** A repository that refuses the write: the calls fail with its error, the
    store is as it was and the broker is offered nothing, although it would
    have taken the event. *)
Example refused_write_sends_nothing :
  updateStockOver (refusedUpdate "write failed") "PROD-1" 25 (widgetWorld None)
  = (Throw (Error "write failed"), widgetWorld None)
  /\ createItemOver (refusedCreate "write failed") testProduct emptyWorld
     = (Throw (Error "write failed"), emptyWorld).
Proof. split; reflexivity. Qed.

(** C7, as the code has it.  A [createItem] call that succeeds has published
    one [STOCK_ADDED] event with previous quantity 0 and the saved quantity; an
    [updateStock] call that succeeds has published one event that is
    [STOCK_ADDED] when the new quantity is strictly greater than the previous
    one and [STOCK_REDUCED] otherwise, an unchanged quantity included.  In both
    the history shows the store write first and the message after it, the
    store holds what the event announces, and a call of either kind, whether
    it succeeds or not, does nothing, or writes once, or writes once and then
    sends one message about what it wrote: nothing is sent before the write
    or without it.  And whatever repository the service is given, a call
    whose repository write throws fails with that error in the world the write
    left, without offering the broker anything. *)
Theorem stock_event_of_write :
  (forall dto w item w',
      createItem dto w = (Return item, w') ->
      exists e,
        published w' = (published w ++ [publishedEntry e])%list
        /\ eventType e = STOCK_ADDED
        /\ previousQuantity e = 0
        /\ newQuantity e = quantity item
        /\ store w !! productCode item = None
        /\ store w' !! productCode item = Some (toDoc item)
        /\ effects w'
           = (effects w
                ++ [Wrote (productCode item) (toDoc item);
                    Sent (publishedEntry e)])%list)
  /\ (forall code q w item w',
        updateStock code q w = (Return item, w') ->
        exists d e,
          store w !! code = Some d
          /\ published w' = (published w ++ [publishedEntry e])%list
          /\ previousQuantity e = doc_quantity d
          /\ newQuantity e = q
          /\ eventType e
             = (if doc_quantity d <? q then STOCK_ADDED else STOCK_REDUCED)
          /\ store w' !! code = Some (updated d q)
          /\ effects w'
             = (effects w
                  ++ [Wrote code (updated d q); Sent (publishedEntry e)])%list)
  /\ (forall dto w,
        published (snd (createItem dto w)) <> published w ->
        store (snd (createItem dto w)) <> store w)
  /\ (forall code q w,
        published (snd (updateStock code q w)) <> published w ->
        exists d, store w !! code = Some d
                  /\ store (snd (updateStock code q w)) !! code = Some (updated d q))
  /\ (forall dto w,
        exists history,
          effects (snd (createItem dto w)) = (effects w ++ history)%list
          /\ writeThenSend history
          /\ store (snd (createItem dto w)) = applyWrites history (store w)
          /\ published (snd (createItem dto w))
             = (published w ++ sentMessages history)%list)
  /\ (forall code q w,
        exists history,
          effects (snd (updateStock code q w)) = (effects w ++ history)%list
          /\ writeThenSend history
          /\ store (snd (updateStock code q w)) = applyWrites history (store w)
          /\ published (snd (updateStock code q w))
             = (published w ++ sentMessages history)%list)
  /\ (forall write code q d w e w',
        store w !! code = Some d ->
        write code q w = (Throw e, w') ->
        updateStockOver write code q w = (Throw e, w'))
  /\ (forall write dto code w e w',
        dto_productCode dto = Some code -> code <> "" ->
        store w !! code = None ->
        write dto w = (Throw e, w') ->
        createItemOver write dto w = (Throw e, w'))
  /\ (forall write dto code w w1 e w',
        Js.truthy (dto_productCode dto) = false ->
        generateUniqueProductCode w = (Return code, w1) ->
        write (withProductCode code dto) w1 = (Throw e, w') ->
        createItemOver write dto w = (Throw e, w')).
Proof.
  split; [|split; [|split; [|split; [|split; [|split; [|split; [|split]]]]]]];
    [idtac|idtac|idtac|idtac|idtac|idtac
    |intros write code q d w e w'; apply updateStockOver_write_fails
    |intros write dto code w e w'; apply createItemOver_supplied_write_fails
    |intros write dto code w w1 e w'; apply createItemOver_generated_write_fails].
  - intros dto w item w' Hrun.
    destruct (createItem_trace dto w) as [(_ & _ & _ & Hno)|(code & Hfree & Hs & Hres)].
    + rewrite Hrun in Hno. exfalso. exact (Hno item eq_refl).
    + rewrite Hrun in Hs, Hres. simpl in Hs, Hres.
      destruct (publishFault w); destruct Hres as (Hres & Hp & Heff); [discriminate|].
      injection Hres as ->.
      exists (createEvent code dto (clock w)). simpl.
      repeat split; try assumption.
      rewrite Hs. apply lookup_insert_eq.
  - intros code q w item w' Hrun.
    destruct (store w !! code) as [d|] eqn:Hd.
    + destruct (updateStock_found code q d w Hd) as [Hs Hres].
      pose proof (updateStock_effects code q d w Hd) as Heff.
      rewrite Hrun in Hs, Hres, Heff. simpl in Hs, Hres, Heff.
      destruct (publishFault w); destruct Hres as [Hres Hp]; [discriminate|].
      exists d, (updateEvent code d q (clock w)). simpl.
      repeat split; try assumption.
      rewrite Hs. apply lookup_insert_eq.
    + rewrite (updateStock_missing code q w Hd) in Hrun. discriminate.
  - intros dto w Hpub Hstore.
    destruct (createItem_trace dto w) as [(_ & Hp & _)|(code & Hfree & Hs & _)].
    + exact (Hpub Hp).
    + rewrite Hs in Hstore.
      assert (Hlook : <[code := newDoc dto]> (store w) !! code = Some (newDoc dto))
        by apply lookup_insert_eq.
      rewrite Hstore, Hfree in Hlook. discriminate.
  - intros code q w Hpub.
    destruct (store w !! code) as [d|] eqn:Hd.
    + exists d. split; [reflexivity|].
      destruct (updateStock_found code q d w Hd) as [Hs _].
      rewrite Hs. apply lookup_insert_eq.
    + rewrite (updateStock_missing code q w Hd) in Hpub. exfalso. apply Hpub.
      reflexivity.
  - intros dto w.
    destruct (createItem_trace dto w)
      as [(Hs & Hp & Heff & _)|(code & Hfree & Hs & Hres)].
    + exists []. rewrite Hs, Hp, Heff, !app_nil_r.
      split; [reflexivity|]. split; [left; reflexivity|]. split; reflexivity.
    + destruct (publishFault w) as [m|]; destruct Hres as (_ & Hp & Heff).
      * exists [Wrote code (newDoc dto)]. rewrite Hs, Hp, Heff. simpl.
        rewrite app_nil_r.
        split; [reflexivity|]. split; [right; left; eauto|]. split; reflexivity.
      * exists [Wrote code (newDoc dto);
                Sent (publishedEntry (createEvent code dto (clock w)))].
        rewrite Hs, Hp, Heff. simpl.
        split; [reflexivity|]. split; [|split; reflexivity].
        right; right. exists code, (newDoc dto), (createEvent code dto (clock w)).
        repeat split.
  - intros code q w.
    destruct (store w !! code) as [d|] eqn:Hd.
    + destruct (updateStock_found code q d w Hd) as [Hs Hres].
      pose proof (updateStock_effects code q d w Hd) as Heff.
      destruct (publishFault w) as [m|]; destruct Hres as [_ Hp].
      * exists [Wrote code (updated d q)]. rewrite Hs, Hp, Heff. simpl.
        rewrite app_nil_r.
        split; [reflexivity|]. split; [right; left; eauto|]. split; reflexivity.
      * exists [Wrote code (updated d q);
                Sent (publishedEntry (updateEvent code d q (clock w)))].
        rewrite Hs, Hp, Heff. simpl.
        split; [reflexivity|]. split; [|split; reflexivity].
        right; right. exists code, (updated d q), (updateEvent code d q (clock w)).
        repeat split.
    + rewrite (updateStock_missing code q w Hd). simpl. exists [].
      rewrite !app_nil_r.
      split; [reflexivity|]. split; [left; reflexivity|]. split; reflexivity.
Qed.

Lemma stock_event_of_write_witness :
  exists d e,
    store (widgetWorld None) !! "PROD-1" = Some d
    /\ previousQuantity e = doc_quantity d
    /\ newQuantity e = 25
    /\ eventType e = STOCK_ADDED.
Proof.
  destruct stock_event_of_write as (_ & Hupdate & _).
  destruct (Hupdate "PROD-1" 25 (widgetWorld None)
              (Some (mkInventory "PROD-1" "Widget" "A widget" 25 (5 # 1)))
              (snd (updateStock "PROD-1" 25 (widgetWorld None))))
    as (d & e & Hd & _ & Hprev & Hnew & Htype & _).
  { vm_compute. reflexivity. }
  exists d, e. split; [exact Hd|]. split; [exact Hprev|]. split; [exact Hnew|].
  rewrite Htype.
  assert (Hd' : store (widgetWorld None) !! "PROD-1"
                = Some (mkInventoryDoc "Widget" "A widget" 10 (5 # 1)))
    by (vm_compute; reflexivity).
  rewrite Hd' in Hd. injection Hd as <-. reflexivity.
Defined.

(** C7 as stated fails: setting the stock to the value it already has is a
    successful update whose new quantity is greater than or equal to the
    previous one, and the event it publishes is [STOCK_REDUCED]. *)
Lemma updateStock_same_quantity_reduced :
  store (widgetWorld None) !! "PROD-1"
    = Some (mkInventoryDoc "Widget" "A widget" 10 (5 # 1))
  /\ 10 >= 10
  /\ fst (putStock "PROD-1" 10 (widgetWorld None))
     = Return (Some (mkInventory "PROD-1" "Widget" "A widget" 10 (5 # 1)))
  /\ fst (updateStock "PROD-1" 10 (widgetWorld None))
     = Return (Some (mkInventory "PROD-1" "Widget" "A widget" 10 (5 # 1)))
  /\ map (fun p => (eventType (pub_payload p), previousQuantity (pub_payload p),
                    newQuantity (pub_payload p)))
       (published (snd (updateStock "PROD-1" 10 (widgetWorld None))))
     = [(STOCK_REDUCED, 10, 10)]
  /\ STOCK_REDUCED <> STOCK_ADDED.
Proof.
  split; [vm_compute; reflexivity|].
  split; [lia|].
  split; [vm_compute; reflexivity|].
  split; [vm_compute; reflexivity|].
  split; [vm_compute; reflexivity|].
  discriminate.
Qed.

(** C8. When publishing throws, a [createItem] that has written its item
    (the supplied code was free, or the generated one is) and an [updateStock]
    on an item of the store both fail with the broker's error, the error is
    logged, and the store keeps the written item. *)
Theorem publish_failure_keeps_write (w : World) (m : string) :
  publishFault w = Some m ->
  (forall dto code,
      dto_productCode dto = Some code -> code <> "" -> store w !! code = None ->
      fst (createItem dto w) = Throw (BrokerError m)
      /\ store (snd (createItem dto w)) !! code = Some (newDoc dto))
  /\ (forall dto,
        Js.truthy (dto_productCode dto) = false ->
        (exists randomNum,
            In randomNum (entropy w) /\ store w !! codeOfDraw randomNum = None) ->
        fst (createItem dto w) = Throw (BrokerError m)
        /\ exists code,
             store w !! code = None
             /\ store (snd (createItem dto w)) !! code = Some (newDoc dto))
  /\ (forall code q d,
        store w !! code = Some d ->
        fst (updateStock code q w) = Throw (BrokerError m)
        /\ store (snd (updateStock code q w)) !! code = Some (updated d q)).
Proof.
  intros Hdown. split; [|split].
  - intros dto code Hcode Hne Hfree.
    rewrite (createItem_supplied code dto w Hcode Hne), Hfree.
    destruct (saveAndAnnounce_fresh code dto w Hcode Hfree) as [Hs Hres].
    rewrite Hdown in Hres. destruct Hres as [Hres _].
    split; [exact Hres|]. rewrite Hs. apply lookup_insert_eq.
  - intros dto Hfalsy Hfresh.
    rewrite (createItem_generated dto w Hfalsy). unfold generateUniqueProductCode.
    pose proof (generateUniqueProductCode_loop_spec (S (length (entropy w))) w)
      as Hloop.
    destruct (generateUniqueProductCode_loop_returns (S (length (entropy w))) w
                (Nat.lt_succ_diag_r _) Hfresh) as (code & w1 & Hgen).
    rewrite Hgen in Hloop |- *.
    destruct Hloop as (Hfree & _ & Hsame).
    apply sameButEntropy_fields in Hsame as (Hs1 & _ & _ & Hf1 & _).
    assert (Hfree1 : store w1 !! code = None) by (rewrite Hs1; exact Hfree).
    destruct (saveAndAnnounce_fresh code (withProductCode code dto) w1 eq_refl Hfree1)
      as [Hs Hres].
    rewrite Hf1, Hdown in Hres. destruct Hres as [Hres _].
    split; [exact Hres|]. exists code. split; [exact Hfree|].
    rewrite Hs. apply lookup_insert_eq.
  - intros code q d Hd.
    destruct (updateStock_found code q d w Hd) as [Hs Hres].
    rewrite Hdown in Hres. destruct Hres as [Hres _].
    split; [exact Hres|]. rewrite Hs. apply lookup_insert_eq.
Qed.

Lemma publish_failure_keeps_write_witness :
  fst (updateStock "PROD-1" 4 (widgetWorld (Some "Channel closed")))
    = Throw (BrokerError "Channel closed")
  /\ store (snd (updateStock "PROD-1" 4 (widgetWorld (Some "Channel closed"))))
       !! "PROD-1"
     = Some (mkInventoryDoc "Widget" "A widget" 4 (5 # 1)).
Proof.
  destruct (publish_failure_keeps_write (widgetWorld (Some "Channel closed"))
              "Channel closed" eq_refl) as (_ & _ & Hupdate).
  apply (Hupdate "PROD-1" 4 (mkInventoryDoc "Widget" "A widget" 10 (5 # 1))).
  vm_compute. reflexivity.
Defined.

(** ** The stock never goes below zero *)

Lemma nonNegativeStock_insert (st : gmap string InventoryDoc) (code : string)
    (d : InventoryDoc) :
  nonNegativeStock st -> 0 <= doc_quantity d ->
  nonNegativeStock (<[code := d]> st).
Proof.
  intros Hst Hd code' d' Hlook.
  destruct (decide (code = code')) as [->|Hne].
  - rewrite lookup_insert_eq in Hlook. injection Hlook as <-. exact Hd.
  - rewrite lookup_insert_ne in Hlook by exact Hne. exact (Hst code' d' Hlook).
Qed.

Lemma postInventory_nonNegative (dto : CreateInventoryDto) (w : World) :
  nonNegativeStock (store w) ->
  nonNegativeStock (store (snd (postInventory dto w))).
Proof.
  intros Hst. unfold postInventory, validateCreateInventoryDto.
  destruct (Z.ltb_spec (dto_quantity dto) 0) as [Hneg|Hpos]; [exact Hst|].
  destruct (Qle_bool 0 (dto_price dto)); [|exact Hst]. simpl.
  destruct (createItem_cases dto w) as [(Hs & _)|(code & _ & Hs & _)]; rewrite Hs.
  - exact Hst.
  - apply nonNegativeStock_insert; [exact Hst|exact Hpos].
Qed.

Lemma putStock_nonNegative (code : string) (q : Z) (w : World) :
  nonNegativeStock (store w) ->
  nonNegativeStock (store (snd (putStock code q w))).
Proof.
  intros Hst. unfold putStock, validateUpdateStockDto.
  destruct (Z.ltb_spec 0 q) as [Hpos|Hneg]; [|exact Hst].
  destruct (store w !! code) as [d|] eqn:Hd.
  - destruct (updateStock_found code q d w Hd) as [Hs _]. rewrite Hs.
    apply nonNegativeStock_insert; [exact Hst|simpl; lia].
  - rewrite (updateStock_missing code q w Hd). exact Hst.
Qed.

Lemma deductStock_nonNegative (code : string) (q : Z) (w : World) :
  nonNegativeStock (store w) ->
  nonNegativeStock (store (snd (deductStock code q w))).
Proof.
  intros Hst.
  destruct (store w !! code) as [d|] eqn:Hd.
  - destruct (Z.lt_ge_cases (doc_quantity d) q) as [Hlt|Hge].
    + destruct (deductStock_insufficient code q d w Hd Hlt) as (w' & -> & Hs & _).
      simpl. rewrite Hs. exact Hst.
    + destruct (deductStock_enough code q d w Hd Hge) as [Hs _]. rewrite Hs.
      apply nonNegativeStock_insert; [exact Hst|].
      simpl. apply roundDouble_nonneg. lia.
  - rewrite (deductStock_missing code q w Hd). exact Hst.
Qed.

(** C6. Whatever createItem, updateStock and deductStock requests are served,
    in whatever order and under whatever broker, clock and random numbers, a
    store whose quantities are non-negative integers stays such a store; in
    particular a store that starts empty never holds a negative quantity. *)
Theorem stock_never_negative (reqs : list (Env * Request)) (w : World) :
  nonNegativeStock (store w) ->
  nonNegativeStock (store (run reqs w)).
Proof.
  revert w. induction reqs as [|[e r] reqs IH]; intros w Hst; simpl; [exact Hst|].
  apply IH. destruct r as [dto|code q|code q]; simpl.
  - apply postInventory_nonNegative. exact Hst.
  - apply putStock_nonNegative. exact Hst.
  - apply deductStock_nonNegative. exact Hst.
Qed.

Lemma stock_never_negative_witness :
  nonNegativeStock (store (run greedyRun emptyWorld))
  /\ store (run greedyRun emptyWorld) !! "INV-000012345"
     = Some (mkInventoryDoc "Gadget" "A gadget" 0 (2999 # 100)).
Proof.
  split.
  - apply (stock_never_negative greedyRun emptyWorld).
    intros code d Hlook. simpl in Hlook. rewrite lookup_empty in Hlook. discriminate.
  - vm_compute. reflexivity.
Defined.

(** ** The scenario of the specification, on the inventory side *)

(** An item with 100 units is created, an order of 2 deducts its stock, and
    the next stock check reports 98. *)
Example stock_after_deduction :
  let prod1 := mkCreateInventoryDto (Some "PROD-1") "Product" "" 100 (100 # 1) in
  let w1 := snd (createItem prod1 emptyWorld) in
  let w2 := snd (deductStock "PROD-1" 2 w1) in
  fst (checkStock "PROD-1" 2 w2)
  = Return {| available := true; message := "Stock available"; currentStock := 98 |}.
Proof. vm_compute. reflexivity. Qed.

(** * Properties of the order choreography *)

Lemma app_eq_self_nil {A} (l extra : list A) : l = (l ++ extra)%list -> extra = [].
Proof.
  intros H. apply (f_equal (@length A)) in H. rewrite length_app in H.
  destruct extra; [reflexivity|simpl in H; lia].
Qed.

(** When the call log of a [createOrder] call shows the stock check and the
    stock deduction, both answered with success, the request was valid, the
    inventory side answered the check with that reply, reporting the stock
    available, and answered the deduction with success. *)
Lemma createOrder_exchanges_succeeded (code : string) (q : Z)
    (r : Order.StockCheckReply) (w : Order.World) :
  Order.calls (snd (Order.createOrder code q w))
  = (Order.calls w
       ++ [Order.StockCheckExchange code q (Order.Replied r);
           Order.StockDeductExchange code q (Order.Replied Order.DeductSucceeded)])%list ->
  Order.validOrder code q = true
  /\ Order.checkReply w code q = Order.Replied r
  /\ Order.available r = true
  /\ Order.deductReply w code q = Order.Replied Order.DeductSucceeded.
Proof.
  unfold Order.createOrder.
  destruct (Order.validOrder code q); simpl.
  - unfold Order.andThen, Order.stockCheck. simpl.
    destruct (Order.checkReply w code q) as [r0| |] eqn:Hcheck; simpl;
      try (intros H; apply app_inv_head in H; discriminate).
    destruct (Order.available r0) eqn:Havail; simpl;
      [|intros H; apply app_inv_head in H; discriminate].
    unfold Order.stockDeduct, Order.persist, Order.fail. simpl.
    destruct (Order.deductReply w code q) as [[|why m]| |] eqn:Hdeduct; simpl;
      try (destruct why; simpl);
      try (rewrite <- app_assoc; simpl;
           intros H; apply app_inv_head in H; discriminate).
    destruct (Order.storeUp w); simpl;
      rewrite <- app_assoc; simpl;
      intros H; apply app_inv_head in H; injection H as ->; auto.
  - intros H. unfold Order.fail in H. simpl in H.
    apply app_eq_self_nil in H. discriminate.
Qed.

(** C1. A [createOrder] call for a valid request, on which the inventory side
    answers the stock check with a reply and the stock deduction with success:
    when the reply reports the stock available and the order store takes the
    insert, the call returns an order that is [CONFIRMED], has
    [totalPrice = quantity * unitPrice] with the unit price of the stock-check
    reply, and is in the order store under its id, and the broker client has
    received exactly the two calls, both answered with success.  Every order
    the call returns is of that kind.  When the store refuses the insert the
    call fails with [InternalError] and, when the reply reports the stock
    unavailable, with [InsufficientStock] after the stock check alone; in both
    cases no order is written. *)
Theorem createOrder_confirmed (code : string) (q : Z) (r : Order.StockCheckReply)
    (w : Order.World) :
  Order.validOrder code q = true ->
  Order.checkReply w code q = Order.Replied r ->
  Order.deductReply w code q = Order.Replied Order.DeductSucceeded ->
  (Order.available r = true -> Order.storeUp w = true ->
   exists o,
     fst (Order.createOrder code q w) = inr o
     /\ Order.status o = Order.CONFIRMED
     /\ Order.totalPrice o = (inject_Z q * Order.unitPrice r)%Q
     /\ Order.productCode o = code
     /\ Order.quantity o = q
     /\ Order.id o = Order.nextId w
     /\ Order.orders (snd (Order.createOrder code q w))
        = <[Order.id o := o]> (Order.orders w)
     /\ Order.calls (snd (Order.createOrder code q w))
        = (Order.calls w
             ++ [Order.StockCheckExchange code q (Order.Replied r);
                 Order.StockDeductExchange code q
                   (Order.Replied Order.DeductSucceeded)])%list)
  /\ (forall o,
        fst (Order.createOrder code q w) = inr o ->
        Order.available r = true
        /\ Order.storeUp w = true
        /\ Order.status o = Order.CONFIRMED
        /\ Order.totalPrice o = (inject_Z q * Order.unitPrice r)%Q
        /\ Order.orders (snd (Order.createOrder code q w)) !! Order.id o = Some o)
  /\ (Order.available r = true -> Order.storeUp w = false ->
      fst (Order.createOrder code q w) = inl Order.InternalError
      /\ Order.orders (snd (Order.createOrder code q w)) = Order.orders w)
  /\ (Order.available r = false ->
      fst (Order.createOrder code q w) = inl (Order.InsufficientStock (Order.message r))
      /\ Order.orders (snd (Order.createOrder code q w)) = Order.orders w
      /\ Order.calls (snd (Order.createOrder code q w))
         = (Order.calls w
              ++ [Order.StockCheckExchange code q (Order.Replied r)])%list).
Proof.
  intros Hvalid Hcheck Hdeduct.
  unfold Order.createOrder. rewrite Hvalid. simpl.
  unfold Order.andThen, Order.stockCheck. simpl. rewrite Hcheck. simpl.
  destruct (Order.available r) eqn:Havail; simpl.
  - unfold Order.stockDeduct, Order.persist. simpl. rewrite Hdeduct. simpl.
    destruct (Order.storeUp w) eqn:Hup; simpl.
    + split; [|split; [|split]]; try (intros; discriminate).
      * intros _ _. eexists. split; [reflexivity|]. simpl.
        rewrite <- app_assoc. repeat split.
      * intros o Ho. injection Ho as <-. simpl.
        repeat split. apply lookup_insert_eq.
    + split; [|split; [|split]]; try (intros; discriminate).
      intros _ _. split; reflexivity.
  - split; [|split; [|split]]; try (intros; discriminate).
    intros _. unfold Order.fail. simpl. repeat split.
Qed.

Lemma createOrder_confirmed_witness :
  exists o,
    fst (Order.createOrder "PROD-1" 2 Order.stocked) = inr o
    /\ Order.status o = Order.CONFIRMED
    /\ Order.totalPrice o = (200 # 1)%Q.
Proof.
  destruct (createOrder_confirmed "PROD-1" 2
              (Order.mkStockCheckReply true "Stock available" 100 (100 # 1))
              Order.stocked eq_refl eq_refl eq_refl) as [Hreturns _].
  destruct (Hreturns eq_refl eq_refl) as (o & Ho & Hstatus & Hprice & _).
  exists o. split; [exact Ho|].
  split; [exact Hstatus|]. rewrite Hprice. reflexivity.
Defined.

(** The order service's integration tests, replayed: an order of 1000 units
    against an inventory that reports insufficient stock fails with the
    responder's message, after one call to the broker and without an order
    being written. *)
Example createOrder_insufficient_stock :
  fst (Order.createOrder "PROD-1" 1000 Order.outOfStock)
    = inl (Order.InsufficientStock "Insufficient stock")
  /\ length (Order.calls (snd (Order.createOrder "PROD-1" 1000 Order.outOfStock)))
     = 1%nat
  /\ Order.orders (snd (Order.createOrder "PROD-1" 1000 Order.outOfStock)) = ∅.
Proof. vm_compute. repeat split. Qed.

(** C2. A [createOrder] call with [quantity <= 0] or with an empty product
    code fails with [ValidationError] and leaves the world as it was: the
    broker client receives no call, neither stock check nor stock deduction. *)
Theorem createOrder_rejects_invalid (code : string) (q : Z) (w : Order.World) :
  q <= 0 \/ code = "" ->
  Order.createOrder code q w = (inl Order.ValidationError, w)
  /\ Order.calls (snd (Order.createOrder code q w)) = Order.calls w.
Proof.
  intros Hbad.
  assert (Hinvalid : Order.validOrder code q = false).
  { unfold Order.validOrder. destruct Hbad as [Hq| ->].
    - destruct (Z.ltb_spec 0 q); [lia|reflexivity].
    - simpl. apply andb_false_r. }
  unfold Order.createOrder. rewrite Hinvalid. simpl. split; reflexivity.
Qed.

Lemma createOrder_rejects_invalid_witness :
  Order.createOrder "" (-1) Order.stocked = (inl Order.ValidationError, Order.stocked)
  /\ Order.calls (snd (Order.createOrder "" (-1) Order.stocked)) = [].
Proof.
  apply (createOrder_rejects_invalid "" (-1) Order.stocked). left. lia.
Defined.

(** * Properties of the broker client's pending table *)

Lemma settle_absent (i : nat) (s : Broker.Settlement) (c : Broker.Client) :
  Broker.pending c !! i = None -> Broker.settle i s c = c.
Proof. intros Hi. unfold Broker.settle. rewrite Hi. reflexivity. Qed.

Lemma connected_consistent : Broker.consistent Broker.connected.
Proof.
  split; [|split]; simpl.
  - intros i e Hi. rewrite lookup_empty in Hi. discriminate.
  - intros i s [].
  - constructor.
Qed.

Lemma publishWithResponse_consistent (envelope : Broker.Envelope) (c : Broker.Client) :
  Broker.consistent c -> Broker.consistent (Broker.publishWithResponse envelope c).
Proof.
  intros (Hpending & Hsettled & Hnodup).
  split; [|split]; simpl.
  - intros i e Hi.
    destruct (decide (Broker.nextCorrelationId c = i)) as [<-|Hne]; [lia|].
    rewrite lookup_insert_ne in Hi by exact Hne.
    specialize (Hpending i e Hi). lia.
  - intros i s Hin. destruct (Hsettled i s Hin) as [Hlt Hnone].
    split; [lia|]. rewrite lookup_insert_ne by lia. exact Hnone.
  - exact Hnodup.
Qed.

Lemma settle_consistent (i : nat) (s : Broker.Settlement) (c : Broker.Client) :
  Broker.consistent c -> Broker.consistent (Broker.settle i s c).
Proof.
  intros Hc. unfold Broker.settle.
  destruct (Broker.pending c !! i) as [e|] eqn:Hi; [|exact Hc].
  destruct Hc as (Hpending & Hsettled & Hnodup).
  split; [|split]; simpl.
  - intros j e' Hj.
    destruct (decide (i = j)) as [->|Hne].
    + rewrite lookup_delete_eq in Hj. discriminate.
    + rewrite lookup_delete_ne in Hj by exact Hne. exact (Hpending j e' Hj).
  - intros j s' Hin. apply in_app_or in Hin as [Hin|[Heq|[]]].
    + destruct (Hsettled j s' Hin) as [Hlt Hnone]. split; [exact Hlt|].
      destruct (decide (i = j)) as [->|Hne];
        [apply lookup_delete_eq|rewrite lookup_delete_ne by exact Hne; exact Hnone].
    + injection Heq as <- <-. split; [exact (Hpending i e Hi)|apply lookup_delete_eq].
  - rewrite map_app. simpl. apply NoDup_app. split; [exact Hnodup|]. split.
    + intros j Hj Hj'. apply list_elem_of_In in Hj. apply in_map_iff in Hj.
      destruct Hj as ([j' s'] & Hfst & Hin). simpl in Hfst. subst j'.
      apply list_elem_of_In in Hj'. destruct Hj' as [<-|[]].
      destruct (Hsettled i s' Hin) as [_ Hnone]. congruence.
    + apply NoDup_singleton.
Qed.

Lemma step_consistent (c : Broker.Client) (e : Broker.Event) :
  Broker.consistent c -> Broker.consistent (Broker.step c e).
Proof.
  destruct e as [envelope|i reply|i]; simpl.
  - apply publishWithResponse_consistent.
  - apply settle_consistent.
  - apply settle_consistent.
Qed.

Lemma run_consistent (events : list Broker.Event) :
  forall c, Broker.consistent c -> Broker.consistent (Broker.run events c).
Proof.
  induction events as [|e events IH]; intros c Hc; simpl; [exact Hc|].
  apply IH. apply step_consistent. exact Hc.
Qed.

Lemma step_keeps_settled (c : Broker.Client) (e : Broker.Event) (i : nat)
    (s : Broker.Settlement) :
  In (i, s) (Broker.settled c) -> In (i, s) (Broker.settled (Broker.step c e)).
Proof.
  intros Hin. destruct e as [envelope|j reply|j]; simpl; [exact Hin| |];
    unfold Broker.settle; destruct (Broker.pending c !! j); simpl;
    try exact Hin; apply in_or_app; left; exact Hin.
Qed.

Lemma run_keeps_settled (events : list Broker.Event) :
  forall c i s,
    In (i, s) (Broker.settled c) -> In (i, s) (Broker.settled (Broker.run events c)).
Proof.
  induction events as [|e events IH]; intros c i s Hin; simpl; [exact Hin|].
  apply IH. apply step_keeps_settled. exact Hin.
Qed.

Lemma filter_fst_absent (l : list (nat * Broker.Settlement)) (i : nat) :
  ~ In i (map fst l) -> List.filter (fun p => Nat.eqb (fst p) i) l = [].
Proof.
  induction l as [|[j s] l IH]; intros Hnot; simpl; [reflexivity|].
  destruct (Nat.eqb_spec j i) as [->|Hne].
  - exfalso. apply Hnot. left. reflexivity.
  - apply IH. intros Hin. apply Hnot. right. exact Hin.
Qed.

Lemma settled_once (l : list (nat * Broker.Settlement)) (i : nat)
    (s : Broker.Settlement) :
  NoDup (map fst l) -> In (i, s) l ->
  map snd (List.filter (fun p => Nat.eqb (fst p) i) l) = [s].
Proof.
  induction l as [|[j s'] l IH]; intros Hnodup Hin; [destruct Hin|].
  simpl in Hnodup. apply NoDup_cons in Hnodup as [Hfresh Hnodup].
  simpl. destruct Hin as [Heq|Hin].
  - injection Heq as -> ->. rewrite Nat.eqb_refl. simpl.
    rewrite filter_fst_absent; [reflexivity|].
    intros Hin. apply Hfresh. apply list_elem_of_In. exact Hin.
  - destruct (Nat.eqb_spec j i) as [->|Hne].
    + exfalso. apply Hfresh. apply list_elem_of_In. apply in_map_iff.
      exists (i, s). split; [reflexivity|exact Hin].
    + apply IH; assumption.
Qed.

Lemma settlements_at_most_one (l : list (nat * Broker.Settlement)) (i : nat) :
  NoDup (map fst l) ->
  (length (map snd (List.filter (fun p => Nat.eqb (fst p) i) l)) <= 1)%nat.
Proof.
  intros Hnodup.
  destruct (List.filter (fun p => Nat.eqb (fst p) i) l) as [|[j s] rest] eqn:Hf;
    [simpl; lia|].
  assert (Hin : In (j, s) (List.filter (fun p => Nat.eqb (fst p) i) l))
    by (rewrite Hf; left; reflexivity).
  apply filter_In in Hin as [Hin Heq]. simpl in Heq. apply Nat.eqb_eq in Heq. subst j.
  rewrite <- Hf, (settled_once l i s Hnodup Hin). simpl. lia.
Qed.

Lemma connected_accounted : Broker.accounted Broker.connected.
Proof. intros i Hi. simpl in Hi. lia. Qed.

Lemma step_accounted (c : Broker.Client) (e : Broker.Event) :
  Broker.accounted c -> Broker.accounted (Broker.step c e).
Proof.
  intros Hc. destruct e as [envelope|i reply|i]; simpl.
  - intros j Hj. simpl in *.
    destruct (decide (Broker.nextCorrelationId c = j)) as [<-|Hne].
    + left. exists envelope. apply lookup_insert_eq.
    + destruct (Hc j) as [[e He]|Hs]; [lia|left|right; exact Hs].
      exists e. rewrite lookup_insert_ne by exact Hne. exact He.
  - unfold Broker.settle.
    destruct (Broker.pending c !! i) as [e0|] eqn:Hi; [|exact Hc].
    intros j Hj. simpl in *.
    destruct (decide (i = j)) as [->|Hne].
    + right. eexists. apply in_or_app. right. left. reflexivity.
    + destruct (Hc j Hj) as [[e He]|[s Hs]].
      * left. exists e. rewrite lookup_delete_ne by exact Hne. exact He.
      * right. exists s. apply in_or_app. left. exact Hs.
  - unfold Broker.settle.
    destruct (Broker.pending c !! i) as [e0|] eqn:Hi; [|exact Hc].
    intros j Hj. simpl in *.
    destruct (decide (i = j)) as [->|Hne].
    + right. eexists. apply in_or_app. right. left. reflexivity.
    + destruct (Hc j Hj) as [[e He]|[s Hs]].
      * left. exists e. rewrite lookup_delete_ne by exact Hne. exact He.
      * right. exists s. apply in_or_app. left. exact Hs.
Qed.

Lemma run_accounted (events : list Broker.Event) :
  forall c, Broker.accounted c -> Broker.accounted (Broker.run events c).
Proof.
  induction events as [|e events IH]; intros c Hc; simpl; [exact Hc|].
  apply IH. apply step_accounted. exact Hc.
Qed.

(** Settling one waiter leaves every other waiter, and what every other
    caller has received, as it was. *)
Lemma settle_frame (i j : nat) (s : Broker.Settlement) (c : Broker.Client) :
  j <> i ->
  Broker.pending (Broker.settle i s c) !! j = Broker.pending c !! j
  /\ Broker.settlementsOf j (Broker.settle i s c) = Broker.settlementsOf j c
  /\ Broker.nextCorrelationId (Broker.settle i s c) = Broker.nextCorrelationId c.
Proof.
  intros Hne. unfold Broker.settle.
  destruct (Broker.pending c !! i) as [e|]; [|auto].
  unfold Broker.settlementsOf. simpl.
  split; [apply lookup_delete_ne; congruence|]. split; [|reflexivity].
  rewrite List.filter_app. simpl.
  destruct (Nat.eqb_spec i j) as [Heq|_]; [congruence|].
  rewrite app_nil_r. reflexivity.
Qed.

(** C5. After any sequence of requests, replies and timer expiries on a
    connected client: the next request registers its waiter under an id that
    has no waiter, and leaves the other waiters and all settlements alone; the
    caller of any request has received at most one settlement, and none while
    its waiter is registered; a reply or a timer expiry for a registered waiter
    removes it and settles its caller with the reply's payload or with
    [TimedOut], and leaves every other waiter and every other caller's
    settlements as they were; once a caller has been settled with [TimedOut],
    a reply for its correlation id changes nothing, and whatever happens later
    that caller has received [TimedOut] exactly once (and likewise a timer
    expiring after the reply changes nothing).  Every id handed out is either
    still registered, with nothing received, or removed, with exactly one
    settlement received, which later events neither change nor repeat; ids
    not handed out yet have neither a waiter nor a settlement. *)
Theorem waiter_settled_once (events : list Broker.Event) :
  let c := Broker.run events Broker.connected in
  Broker.pending c !! Broker.nextCorrelationId c = None
  /\ (forall i, (length (Broker.settlementsOf i c) <= 1)%nat)
  /\ (forall i e, Broker.pending c !! i = Some e -> Broker.settlementsOf i c = [])
  /\ (forall i e reply,
        Broker.pending c !! i = Some e ->
        Broker.pending (Broker.step c (Broker.ReplyArrives i reply)) !! i = None
        /\ Broker.settlementsOf i (Broker.step c (Broker.ReplyArrives i reply))
           = [Broker.Resolved reply])
  /\ (forall i e,
        Broker.pending c !! i = Some e ->
        Broker.pending (Broker.step c (Broker.TimerExpires i)) !! i = None
        /\ Broker.settlementsOf i (Broker.step c (Broker.TimerExpires i))
           = [Broker.RejectedTimedOut])
  /\ (forall i reply,
        In (i, Broker.RejectedTimedOut) (Broker.settled c) ->
        Broker.step c (Broker.ReplyArrives i reply) = c)
  /\ (forall i reply,
        In (i, Broker.Resolved reply) (Broker.settled c) ->
        Broker.step c (Broker.TimerExpires i) = c)
  /\ (forall i later,
        In (i, Broker.RejectedTimedOut) (Broker.settled c) ->
        Broker.settlementsOf i (Broker.run later c) = [Broker.RejectedTimedOut])
  /\ (forall i,
        (i < Broker.nextCorrelationId c)%nat ->
        (exists e, Broker.pending c !! i = Some e /\ Broker.settlementsOf i c = [])
        \/ (Broker.pending c !! i = None
            /\ exists s, Broker.settlementsOf i c = [s]))
  /\ (forall i,
        (Broker.nextCorrelationId c <= i)%nat ->
        Broker.pending c !! i = None /\ Broker.settlementsOf i c = [])
  /\ (forall i j reply,
        j <> i ->
        Broker.pending (Broker.step c (Broker.ReplyArrives i reply)) !! j
        = Broker.pending c !! j
        /\ Broker.settlementsOf j (Broker.step c (Broker.ReplyArrives i reply))
           = Broker.settlementsOf j c
        /\ Broker.nextCorrelationId (Broker.step c (Broker.ReplyArrives i reply))
           = Broker.nextCorrelationId c)
  /\ (forall i j,
        j <> i ->
        Broker.pending (Broker.step c (Broker.TimerExpires i)) !! j
        = Broker.pending c !! j
        /\ Broker.settlementsOf j (Broker.step c (Broker.TimerExpires i))
           = Broker.settlementsOf j c
        /\ Broker.nextCorrelationId (Broker.step c (Broker.TimerExpires i))
           = Broker.nextCorrelationId c)
  /\ (forall envelope,
        Broker.pending (Broker.step c (Broker.Request envelope))
          !! Broker.nextCorrelationId c
        = Some envelope
        /\ Broker.nextCorrelationId (Broker.step c (Broker.Request envelope))
           = S (Broker.nextCorrelationId c)
        /\ Broker.settled (Broker.step c (Broker.Request envelope))
           = Broker.settled c
        /\ forall j,
             j <> Broker.nextCorrelationId c ->
             Broker.pending (Broker.step c (Broker.Request envelope)) !! j
             = Broker.pending c !! j)
  /\ (forall i s later,
        In (i, s) (Broker.settled c) ->
        Broker.settlementsOf i (Broker.run later c) = [s]
        /\ Broker.pending (Broker.run later c) !! i = None).
Proof.
  intros c.
  assert (Hc : Broker.consistent c)
    by (apply run_consistent; exact connected_consistent).
  assert (Hacc : Broker.accounted c)
    by (apply run_accounted; exact connected_accounted).
  pose proof Hc as (Hpending & Hsettled & Hnodup).
  assert (Hsettle : forall i e s,
             Broker.pending c !! i = Some e ->
             Broker.pending (Broker.settle i s c) !! i = None
             /\ Broker.settlementsOf i (Broker.settle i s c) = [s]).
  { intros i e s Hi.
    pose proof (settle_consistent i s c Hc) as (_ & _ & Hnodup').
    unfold Broker.settlementsOf. unfold Broker.settle in *. rewrite Hi in *.
    simpl in *. split; [apply lookup_delete_eq|].
    apply settled_once; [exact Hnodup'|]. apply in_or_app. right. left. reflexivity. }
  assert (Hnone : forall i e,
             Broker.pending c !! i = Some e -> Broker.settlementsOf i c = []).
  { intros i e Hi. unfold Broker.settlementsOf.
    rewrite filter_fst_absent; [reflexivity|].
    intros Hin. apply in_map_iff in Hin as ([j s] & Hfst & Hin). simpl in Hfst.
    subst j. destruct (Hsettled i s Hin) as [_ Hnone]. congruence. }
  repeat apply conj.
  - destruct (Broker.pending c !! Broker.nextCorrelationId c) as [e|] eqn:Hnext;
      [|reflexivity].
    specialize (Hpending _ _ Hnext). lia.
  - intros i. apply settlements_at_most_one. exact Hnodup.
  - exact Hnone.
  - intros i e reply Hi. exact (Hsettle i e (Broker.Resolved reply) Hi).
  - intros i e Hi. exact (Hsettle i e Broker.RejectedTimedOut Hi).
  - intros i reply Hin. simpl. apply settle_absent.
    exact (proj2 (Hsettled _ _ Hin)).
  - intros i reply Hin. simpl. apply settle_absent.
    exact (proj2 (Hsettled _ _ Hin)).
  - intros i later Hin. unfold Broker.settlementsOf.
    apply settled_once.
    + exact (proj2 (proj2 (run_consistent later c Hc))).
    + apply run_keeps_settled. exact Hin.
  - intros i Hi. destruct (Hacc i Hi) as [[e He]|[s Hs]].
    + left. exists e. split; [exact He|exact (Hnone i e He)].
    + right. split; [exact (proj2 (Hsettled i s Hs))|].
      exists s. unfold Broker.settlementsOf. apply settled_once; assumption.
  - intros i Hi. split.
    + destruct (Broker.pending c !! i) as [e|] eqn:He; [|reflexivity].
      specialize (Hpending i e He). lia.
    + unfold Broker.settlementsOf. rewrite filter_fst_absent; [reflexivity|].
      intros Hin. apply in_map_iff in Hin as ([j s] & Hfst & Hin). simpl in Hfst.
      subst j. destruct (Hsettled i s Hin) as [Hlt _]. lia.
  - intros i j reply Hne. simpl. apply settle_frame. exact Hne.
  - intros i j Hne. simpl. apply settle_frame. exact Hne.
  - intros envelope. simpl.
    split; [apply lookup_insert_eq|]. split; [reflexivity|]. split; [reflexivity|].
    intros j Hne. apply lookup_insert_ne. congruence.
  - intros i s later Hin.
    pose proof (run_consistent later c Hc) as (_ & Hsettled' & Hnodup').
    pose proof (run_keeps_settled later c i s Hin) as Hin'.
    split.
    + unfold Broker.settlementsOf. apply settled_once; assumption.
    + exact (proj2 (Hsettled' i s Hin')).
Qed.

Lemma waiter_settled_once_witness :
  let ping := Broker.mkEnvelope "amq.rabbitmq.reply-to" "ping" 5000 in
  let c := Broker.run [Broker.Request ping; Broker.TimerExpires 0] Broker.connected in
  Broker.step c (Broker.ReplyArrives 0 "late") = c
  /\ Broker.settlementsOf 0
       (Broker.run [Broker.ReplyArrives 0 "late"; Broker.TimerExpires 0] c)
     = [Broker.RejectedTimedOut].
Proof.
  intros ping c.
  destruct (waiter_settled_once [Broker.Request ping; Broker.TimerExpires 0])
    as (_ & _ & _ & _ & _ & Hlate & _ & Hforever & _).
  assert (Hin : In (0%nat, Broker.RejectedTimedOut) (Broker.settled c))
    by (left; reflexivity).
  split; [exact (Hlate 0%nat "late" Hin)|exact (Hforever 0%nat _ Hin)].
Defined.

(** A request that times out and whose reply arrives afterwards, next to one
    that is answered in time. *)
Example late_reply_dropped :
  let ping := Broker.mkEnvelope "amq.rabbitmq.reply-to" "ping" 5000 in
  let c := Broker.run
             [Broker.Request ping; Broker.Request ping; Broker.TimerExpires 0;
              Broker.ReplyArrives 1 "pong"; Broker.ReplyArrives 0 "late";
              Broker.TimerExpires 1]
             Broker.connected in
  Broker.settlementsOf 0 c = [Broker.RejectedTimedOut]
  /\ Broker.settlementsOf 1 c = [Broker.Resolved "pong"]
  /\ Broker.pending c = ∅.
Proof. vm_compute. repeat split. Qed.

(** * Further properties of the inventory service *)

(** ** Product codes *)

Lemma generateUniqueProductCode_loop_first_free (fuel : nat) :
  forall w,
    (length (entropy w) < fuel)%nat ->
    match generateUniqueProductCode_loop fuel w with
    | (Return code, w') =>
        exists skipped randomNum,
          entropy w = (skipped ++ randomNum :: entropy w')%list
          /\ code = codeOfDraw randomNum
          /\ Forall (taken (store w)) skipped
          /\ store w !! code = None
          /\ sameButEntropy w w'
    | (Throw _, _) => False
    | (Diverge, w') =>
        Forall (taken (store w)) (entropy w) /\ sameButEntropy w w'
    end.
Proof.
  induction fuel as [|fuel IH]; intros w Hlen; [lia|].
  simpl. unfold await, generateProductCode.
  destruct (entropy w) as [|r rest] eqn:He.
  - split; [constructor|apply sameButEntropy_refl].
  - unfold findItemById. simpl. fold (codeOfDraw r).
    destruct (store w !! codeOfDraw r) as [d|] eqn:Hd; simpl.
    + assert (Htaken : taken (store w) r) by (unfold taken; congruence).
      specialize (IH (setEntropy rest w)). simpl in IH.
      assert (Hlen' : (length rest < fuel)%nat) by (simpl in Hlen; lia).
      specialize (IH Hlen').
      destruct (generateUniqueProductCode_loop fuel (setEntropy rest w))
        as [[code|e|] w'].
      * destruct IH as (skipped & r' & Hent & Hcode & Hskipped & Hfree & Hsame).
        exists (r :: skipped), r'. simpl. rewrite Hent.
        split; [reflexivity|]. split; [exact Hcode|].
        split; [constructor; assumption|]. split; [exact Hfree|].
        eapply sameButEntropy_trans; [|exact Hsame]. reflexivity.
      * exact IH.
      * destruct IH as [Hall Hsame]. split; [constructor; assumption|].
        eapply sameButEntropy_trans; [|exact Hsame]. reflexivity.
    + unfold resolve. exists [], r. simpl.
      split; [reflexivity|]. split; [reflexivity|]. split; [constructor|].
      split; [exact Hd|reflexivity].
Qed.

(** X1. [generateUniqueProductCode] takes the random numbers in order and
    returns the code of the first one whose code is not in the store: the
    numbers before it all gave codes the store has, and the numbers after it
    are left for later.  It never throws, writes nothing, and fails to end
    only if every number gives a code that is taken. *)
Theorem generateUniqueProductCode_first_free (w : World) :
  match generateUniqueProductCode w with
  | (Return code, w') =>
      exists skipped randomNum,
        entropy w = (skipped ++ randomNum :: entropy w')%list
        /\ code = codeOfDraw randomNum
        /\ Forall (taken (store w)) skipped
        /\ store w !! code = None
        /\ sameButEntropy w w'
  | (Throw _, _) => False
  | (Diverge, w') =>
      Forall (taken (store w)) (entropy w) /\ sameButEntropy w w'
  end.
Proof.
  unfold generateUniqueProductCode.
  apply generateUniqueProductCode_loop_first_free. lia.
Qed.

Lemma list_ascii_of_string_append (s1 s2 : string) :
  list_ascii_of_string (s1 ++ s2)
  = (list_ascii_of_string s1 ++ list_ascii_of_string s2)%list.
Proof. induction s1 as [|c s1 IH]; simpl; [reflexivity|]. rewrite IH. reflexivity. Qed.

Lemma list_ascii_of_repeatChar (n : nat) (c : ascii) :
  list_ascii_of_string (Js.repeatChar n c) = repeat c n.
Proof. induction n as [|n IH]; simpl; [reflexivity|]. rewrite IH. reflexivity. Qed.

Lemma valueRev_app (l1 l2 : list ascii) :
  Js.valueRev (l1 ++ l2)
  = (Js.valueRev l1 + 10 ^ N.of_nat (length l1) * Js.valueRev l2)%N.
Proof.
  induction l1 as [|c l1 IH]; simpl Js.valueRev; simpl length.
  - simpl. lia.
  - rewrite IH.
    replace (N.of_nat (S (length l1))) with (N.succ (N.of_nat (length l1))) by lia.
    rewrite N.pow_succ_r'. lia.
Qed.

Lemma valueRev_zeros (l : list ascii) :
  (forall c, In c l -> c = "0"%char) -> Js.valueRev l = 0%N.
Proof.
  induction l as [|c l IH]; intros Hall; simpl; [reflexivity|].
  rewrite (Hall c (or_introl eq_refl)), IH by (intros; apply Hall; right; assumption).
  reflexivity.
Qed.

(** Reading a padded number back gives the number: the zeros in front do not
    count. *)
Lemma padStart_value (target : nat) (n : N) :
  Js.valueRev (rev (list_ascii_of_string (Js.padStart target "0" (Js.N_toString n))))
  = n.
Proof.
  unfold Js.padStart.
  rewrite list_ascii_of_string_append, rev_app_distr, valueRev_app.
  rewrite N_toString_value, list_ascii_of_repeatChar.
  rewrite (valueRev_zeros (rev (repeat "0"%char _))); [lia|].
  intros c Hc. apply in_rev in Hc. apply repeat_spec in Hc. exact Hc.
Qed.

Lemma codeOfDraw_inj (r1 r2 : N) : codeOfDraw r1 = codeOfDraw r2 -> r1 = r2.
Proof.
  unfold codeOfDraw. intros H. apply (inj (String.append "INV-")) in H.
  rewrite <- (padStart_value 9 r1), <- (padStart_value 9 r2), H. reflexivity.
Qed.

(** X2. [generateProductCode] turns different random numbers into different
    product codes: two runs that return the same code have drawn the same
    number. *)
Theorem generateProductCode_injective (w1 w2 : World) (r1 r2 : N)
    (rest1 rest2 : list N) :
  entropy w1 = r1 :: rest1 ->
  entropy w2 = r2 :: rest2 ->
  fst (generateProductCode w1) = fst (generateProductCode w2) ->
  r1 = r2.
Proof.
  intros H1 H2. unfold generateProductCode. rewrite H1, H2. cbn [fst].
  fold (codeOfDraw r1). fold (codeOfDraw r2).
  intros H. apply codeOfDraw_inj. congruence.
Qed.

Lemma generateProductCode_injective_witness :
  fst (generateProductCode takenCodeWorld)
    = fst (generateProductCode (withEnv (mkEnv [5%N] None 9) emptyWorld))
  /\ 5%N = 5%N.
Proof.
  split; [reflexivity|].
  exact (generateProductCode_injective takenCodeWorld
           (withEnv (mkEnv [5%N] None 9) emptyWorld) 5 5 [7%N] []
           eq_refl eq_refl eq_refl).
Defined.

(** ** What one call does to the store and to the event stream *)

Lemma sameItem_refl (d : InventoryDoc) : sameItem d d.
Proof. repeat split. Qed.

Lemma sameItem_trans (d1 d2 d3 : InventoryDoc) :
  sameItem d1 d2 -> sameItem d2 d3 -> sameItem d1 d3.
Proof. unfold sameItem. intros (? & ? & ?) (? & ? & ?). repeat split; congruence. Qed.

Lemma codeOfDraw_not_empty (randomNum : N) : codeOfDraw randomNum <> "".
Proof. unfold codeOfDraw. simpl. discriminate. Qed.

Lemma saveAndAnnounce_oneWrite (code : string) (dto : CreateInventoryDto)
    (w w1 : World) :
  dto_productCode dto = Some code -> code <> "" -> store w1 !! code = None ->
  store w1 = store w -> published w1 = published w ->
  publishFault w1 = publishFault w ->
  oneWrite w (snd (saveAndAnnounce dto w1)).
Proof.
  intros Hcode Hne Hfree Hs Hp Hf.
  destruct (saveAndAnnounce_fresh code dto w1 Hcode Hfree) as [Hstore Hres].
  right. exists code, (newDoc dto), (createEvent code dto (clock w1)).
  rewrite Hstore, Hs.
  split; [reflexivity|].
  split; [rewrite <- Hs, Hfree; exact Hne|].
  split; [reflexivity|].
  split; [reflexivity|].
  rewrite <- Hp, <- Hf.
  destruct (publishFault w1); destruct Hres as [_ Hpub]; rewrite Hpub.
  - split; [left; reflexivity|discriminate].
  - split; [right; reflexivity|reflexivity].
Qed.

Lemma createItem_oneWrite (dto : CreateInventoryDto) (w : World) :
  oneWrite w (snd (createItem dto w)).
Proof.
  destruct (Js.truthy (dto_productCode dto)) eqn:Htruthy.
  - destruct (dto_productCode dto) as [[|c code]|] eqn:Hcode; try discriminate.
    rewrite (createItem_supplied (String c code) dto w Hcode) by discriminate.
    destruct (store w !! String c code) as [d|] eqn:Hd.
    + left. split; reflexivity.
    + apply (saveAndAnnounce_oneWrite (String c code)); auto; discriminate.
  - rewrite (createItem_generated dto w Htruthy).
    pose proof (generateUniqueProductCode_loop_spec (S (length (entropy w))) w)
      as Hloop.
    unfold generateUniqueProductCode.
    destruct (generateUniqueProductCode_loop (S (length (entropy w))) w)
      as [[code|e|] w1]; [|destruct Hloop|].
    + destruct Hloop as (Hfree & (r & _ & ->) & Hsame).
      apply sameButEntropy_fields in Hsame as (Hs1 & Hp1 & _ & Hf1 & _).
      apply (saveAndAnnounce_oneWrite (codeOfDraw r));
        auto using codeOfDraw_not_empty.
      rewrite Hs1. exact Hfree.
    + apply sameButEntropy_fields in Hloop as (Hs1 & Hp1 & _).
      left. split; assumption.
Qed.

Lemma updateStock_oneWrite (code : string) (q : Z) (w : World) :
  oneWrite w (snd (updateStock code q w)).
Proof.
  destruct (store w !! code) as [d|] eqn:Hd.
  - destruct (updateStock_found code q d w Hd) as [Hs Hres].
    right. exists code, (updated d q), (updateEvent code d q (clock w)).
    rewrite Hd. split; [exact Hs|]. split; [repeat split|].
    split; [reflexivity|]. split; [reflexivity|].
    destruct (publishFault w); destruct Hres as [_ Hpub]; rewrite Hpub.
    + split; [left; reflexivity|discriminate].
    + split; [right; reflexivity|reflexivity].
  - rewrite (updateStock_missing code q w Hd). left. split; reflexivity.
Qed.

Lemma deductStock_oneWrite (code : string) (q : Z) (w : World) :
  oneWrite w (snd (deductStock code q w)).
Proof.
  destruct (store w !! code) as [d|] eqn:Hd.
  - destruct (Z.lt_ge_cases (doc_quantity d) q) as [Hlt|Hge].
    + destruct (deductStock_insufficient code q d w Hd Hlt) as (w' & -> & Hs & Hp).
      left. split; assumption.
    + destruct (deductStock_enough code q d w Hd Hge) as [Hs Hres].
      right. exists code, (deducted d q), (deductEvent code d q (clock w)).
      rewrite Hd. split; [exact Hs|]. split; [repeat split|].
      split; [reflexivity|]. split; [reflexivity|].
      destruct (publishFault w); destruct Hres as [_ Hpub]; rewrite Hpub.
      * split; [left; reflexivity|discriminate].
      * split; [right; reflexivity|reflexivity].
  - rewrite (deductStock_missing code q w Hd). left. split; reflexivity.
Qed.

Lemma getItem_readonly (code : string) (w : World) :
  store (snd (getItem code w)) = store w
  /\ published (snd (getItem code w)) = published w
  /\ publishFault (snd (getItem code w)) = publishFault w.
Proof.
  destruct (store w !! code) as [d|] eqn:Hd.
  - destruct (getItem_found code d w Hd) as (w' & -> & Hs & Hp & _ & Hf & _).
    simpl. auto.
  - rewrite (getItem_missing code w Hd). simpl. auto.
Qed.

Lemma checkStock_readonly (code : string) (q : Z) (w : World) :
  store (snd (checkStock code q w)) = store w
  /\ published (snd (checkStock code q w)) = published w
  /\ publishFault (snd (checkStock code q w)) = publishFault w
  /\ clock (snd (checkStock code q w)) = clock w.
Proof.
  unfold checkStock, await, findItemById, logger_log, modify, resolve.
  destruct (store w !! code); simpl; auto.
Qed.

Lemma serve_oneWrite (c : Call) (w : World) : oneWrite w (serve c w).
Proof.
  destruct c as [dto|code q|code|code q|code q]; simpl.
  - apply createItem_oneWrite.
  - apply updateStock_oneWrite.
  - left. destruct (getItem_readonly code w) as (Hs & Hp & _). split; assumption.
  - left. destruct (checkStock_readonly code q w) as (Hs & Hp & _). split; assumption.
  - apply deductStock_oneWrite.
Qed.

(** ** Invariants of every sequence of calls *)

Lemma oneWrite_keeps_items (w w' : World) (code : string) (d : InventoryDoc) :
  oneWrite w w' -> store w !! code = Some d ->
  exists d', store w' !! code = Some d' /\ sameItem d d'.
Proof.
  intros [[Hs _]|(code0 & d0 & ev & Hs & Hold & _)] Hd; rewrite Hs.
  - exists d. split; [exact Hd|apply sameItem_refl].
  - destruct (decide (code0 = code)) as [->|Hne].
    + rewrite Hd in Hold. exists d0. split; [apply lookup_insert_eq|exact Hold].
    + exists d. rewrite lookup_insert_ne by exact Hne.
      split; [exact Hd|apply sameItem_refl].
Qed.

Lemma oneWrite_empty_code (w w' : World) :
  oneWrite w w' -> store w !! "" = None -> store w' !! "" = None.
Proof.
  intros [[Hs _]|(code0 & d0 & ev & Hs & Hold & _)] Hnone; rewrite Hs.
  - exact Hnone.
  - destruct (decide (code0 = "")) as [->|Hne].
    + rewrite Hnone in Hold. congruence.
    + rewrite lookup_insert_ne by exact Hne. exact Hnone.
Qed.

Lemma oneWrite_published (w w' : World) :
  oneWrite w w' ->
  exists extra,
    published w' = (published w ++ extra)%list /\ (length extra <= 1)%nat.
Proof.
  intros [[_ Hp]|(code0 & d0 & ev & _ & _ & _ & _ & [Hp|Hp] & _)]; rewrite Hp.
  - exists []. rewrite app_nil_r. simpl. split; [reflexivity|lia].
  - exists []. rewrite app_nil_r. simpl. split; [reflexivity|lia].
  - eexists. split; [reflexivity|simpl; lia].
Qed.

Lemma lastQuantity_snoc (code : string) (events : list Published) (p : Published) :
  lastQuantity code (events ++ [p])
  = if String.eqb (ev_productCode (pub_payload p)) code
    then Some (newQuantity (pub_payload p))
    else lastQuantity code events.
Proof. unfold lastQuantity. rewrite fold_left_app. reflexivity. Qed.

Lemma oneWrite_eventsMatchStore (w w' : World) :
  oneWrite w w' -> publishFault w = None ->
  eventsMatchStore w -> eventsMatchStore w'.
Proof.
  intros [[Hs Hp]|(code0 & d0 & ev & Hs & _ & Hcode & Hq & _ & Hp)] Hup Hmatch
    code d Hd.
  - rewrite Hp. apply Hmatch. rewrite <- Hs. exact Hd.
  - rewrite (Hp Hup), lastQuantity_snoc. simpl. rewrite Hcode.
    rewrite Hs in Hd.
    destruct (String.eqb_spec code0 code) as [->|Hne].
    + rewrite lookup_insert_eq in Hd. injection Hd as <-. rewrite Hq. reflexivity.
    + rewrite lookup_insert_ne in Hd by exact Hne. apply Hmatch. exact Hd.
Qed.

(** X3. No call of the service deletes an item or touches its name,
    description or price: an item of the store is still there after any
    sequence of calls, under whatever broker, with at most its quantity
    changed. *)
Theorem items_persist (calls : list (Env * Call)) (w : World) (code : string)
    (d : InventoryDoc) :
  store w !! code = Some d ->
  exists d', store (serveAll calls w) !! code = Some d' /\ sameItem d d'.
Proof.
  revert w d. induction calls as [|[e c] calls IH]; intros w d Hd; simpl.
  - exists d. split; [exact Hd|apply sameItem_refl].
  - destruct (oneWrite_keeps_items (withEnv e w) (serve c (withEnv e w)) code d
                (serve_oneWrite c (withEnv e w)) Hd) as (d1 & Hd1 & Hsame1).
    destruct (IH _ d1 Hd1) as (d2 & Hd2 & Hsame2).
    exists d2. split; [exact Hd2|]. eapply sameItem_trans; eassumption.
Qed.

Lemma items_persist_witness :
  exists d',
    store (serveAll busyCalls testWorld) !! "TEST-123456789" = Some d'
    /\ sameItem (mkInventoryDoc "Test Product" "Test Description" 100 (2999 # 100)) d'.
Proof.
  apply (items_persist busyCalls testWorld "TEST-123456789").
  vm_compute. reflexivity.
Defined.

(** X4. The service never files an item under the empty product code: a
    request whose product code is the empty string gets a generated code, and
    no other call creates items.  A store without an item under [""] stays
    without one through any sequence of calls. *)
Theorem no_empty_product_code (calls : list (Env * Call)) (w : World) :
  store w !! "" = None ->
  store (serveAll calls w) !! "" = None.
Proof.
  revert w. induction calls as [|[e c] calls IH]; intros w Hnone; simpl;
    [exact Hnone|].
  apply IH.
  exact (oneWrite_empty_code (withEnv e w) _ (serve_oneWrite c (withEnv e w)) Hnone).
Qed.

Lemma no_empty_product_code_witness :
  store (serveAll busyCalls testWorld) !! "" = None
  /\ store (serveAll busyCalls testWorld) !! "INV-000012345"
     = Some (mkInventoryDoc "Nameless" "" 1 (1 # 1)).
Proof.
  split.
  - apply (no_empty_product_code busyCalls testWorld). vm_compute. reflexivity.
  - vm_compute. reflexivity.
Defined.

(** X5. The event stream only grows: whatever calls are served, the events
    published before are still there, in the same order, and every call has
    added at most one event. *)
Theorem published_append_only (calls : list (Env * Call)) (w : World) :
  exists extra,
    published (serveAll calls w) = (published w ++ extra)%list
    /\ (length extra <= length calls)%nat.
Proof.
  revert w. induction calls as [|[e c] calls IH]; intros w; simpl.
  - exists []. rewrite app_nil_r. simpl. split; [reflexivity|lia].
  - destruct (oneWrite_published (withEnv e w) _ (serve_oneWrite c (withEnv e w)))
      as (extra1 & Hp1 & Hlen1).
    destruct (IH (serve c (withEnv e w))) as (extra2 & Hp2 & Hlen2).
    exists (extra1 ++ extra2)%list. rewrite Hp2, Hp1, <- app_assoc.
    split; [reflexivity|]. rewrite length_app. lia.
Qed.

(** X6. As long as the broker takes every event, the event stream tells the
    stock: after any sequence of calls, the last published event about a
    product code carries, as its [newQuantity], the quantity the store holds
    for that code. *)
Theorem events_match_store (calls : list (Env * Call)) (w : World) :
  eventsMatchStore w ->
  Forall (fun ec => env_publishFault (fst ec) = None) calls ->
  eventsMatchStore (serveAll calls w).
Proof.
  revert w. induction calls as [|[e c] calls IH]; intros w Hmatch Hup; simpl;
    [exact Hmatch|].
  apply Forall_cons in Hup as [Hup1 Hup].
  apply IH; [|exact Hup].
  apply (oneWrite_eventsMatchStore (withEnv e w));
    [apply serve_oneWrite|exact Hup1|exact Hmatch].
Qed.

Lemma events_match_store_witness :
  lastQuantity "TEST-123456789" (published (serveAll calmCalls emptyWorld)) = Some 75
  /\ lastQuantity "INV-000012345" (published (serveAll calmCalls emptyWorld)) = Some 7.
Proof.
  assert (Hmatch : eventsMatchStore (serveAll calmCalls emptyWorld)).
  { apply (events_match_store calmCalls emptyWorld).
    - intros code d Hd. simpl in Hd. rewrite lookup_empty in Hd. discriminate.
    - repeat constructor. }
  split.
  - apply (Hmatch "TEST-123456789"
             (mkInventoryDoc "Test Product" "Test Description" 75 (2999 # 100))).
    vm_compute. reflexivity.
  - apply (Hmatch "INV-000012345" (mkInventoryDoc "Gadget" "A gadget" 7 (2999 # 100))).
    vm_compute. reflexivity.
Defined.

(** ** How the calls compose *)

Lemma createItem_supplied_store (dto : CreateInventoryDto) (code : string)
    (w : World) :
  dto_productCode dto = Some code -> code <> "" ->
  store (snd (createItem dto w)) !! code
  = match store w !! code with
    | Some d => Some d
    | None => Some (newDoc dto)
    end.
Proof.
  intros Hcode Hne. rewrite (createItem_supplied code dto w Hcode Hne).
  destruct (store w !! code) as [d|] eqn:Hd; [exact Hd|].
  destruct (saveAndAnnounce_fresh code dto w Hcode Hd) as [Hs _].
  rewrite Hs. apply lookup_insert_eq.
Qed.

(** X7. An item created under a product code the caller supplied can be
    fetched by that code with the name, description, quantity and price of the
    request, and this also holds when [createItem] itself failed because the
    event could not be published. *)
Theorem createItem_supplied_roundtrip (dto : CreateInventoryDto) (code : string)
    (w : World) (e : Env) :
  dto_productCode dto = Some code -> code <> "" -> store w !! code = None ->
  exists w',
    getItem code (withEnv e (snd (createItem dto w)))
    = (Return (mkInventory code (dto_name dto) (dto_description dto)
                 (dto_quantity dto) (dto_price dto)), w').
Proof.
  intros Hcode Hne Hfree.
  pose proof (createItem_supplied_store dto code w Hcode Hne) as Hd.
  rewrite Hfree in Hd.
  destruct (getItem_found code (newDoc dto) (withEnv e (snd (createItem dto w))) Hd)
    as (w' & Hget & _).
  exists w'. exact Hget.
Qed.

Lemma createItem_supplied_roundtrip_witness :
  exists w',
    getItem "TEST-123456789"
      (withEnv calmEnv (snd (createItem testProduct (withEnv faultyEnv emptyWorld))))
    = (Return (mkInventory "TEST-123456789" "Test Product" "Test Description" 100
                 (2999 # 100)), w').
Proof.
  apply (createItem_supplied_roundtrip testProduct "TEST-123456789"
           (withEnv faultyEnv emptyWorld) calmEnv eq_refl).
  - discriminate.
  - vm_compute. reflexivity.
Defined.

(** X8. Creating twice under the same supplied product code: whatever the
    first [createItem] did (it returned the item, found the code taken, or
    failed on publishing after its write), the second one fails with
    [ConflictException] and changes nothing. *)
Theorem createItem_twice_conflicts (dto dto' : CreateInventoryDto) (code : string)
    (w : World) (e : Env) :
  dto_productCode dto = Some code -> dto_productCode dto' = Some code ->
  code <> "" ->
  createItem dto' (withEnv e (snd (createItem dto w)))
  = (Throw (ConflictException "Item with this product code already exists"),
     withEnv e (snd (createItem dto w))).
Proof.
  intros Hcode Hcode' Hne.
  rewrite (createItem_supplied code dto' _ Hcode' Hne).
  change (store (withEnv e (snd (createItem dto w))))
    with (store (snd (createItem dto w))).
  rewrite (createItem_supplied_store dto code w Hcode Hne).
  destruct (store w !! code); reflexivity.
Qed.

Lemma createItem_twice_conflicts_witness :
  fst (createItem testProduct
         (withEnv calmEnv (snd (createItem testProduct (withEnv faultyEnv emptyWorld)))))
  = Throw (ConflictException "Item with this product code already exists").
Proof.
  rewrite (createItem_twice_conflicts testProduct testProduct "TEST-123456789"
             (withEnv faultyEnv emptyWorld) calmEnv eq_refl eq_refl).
  - reflexivity.
  - discriminate.
Defined.

(** X9. [checkStock] predicts [deductStock].  When the check for a quantity
    answers [available: false], the deduction of that quantity is refused
    (item not found, or insufficient stock) and the store stays as it is; when
    it answers [available: true], the deduction is not refused: it writes the
    item back with the difference of [currentStock] and the quantity (exactly
    [currentStock - quantity] as long as both are safe integers, rounded
    beyond) and succeeds if the broker takes the event. *)
Theorem checkStock_predicts_deductStock (code : string) (q : Z) (w : World)
    (r : StockCheck) :
  fst (checkStock code q w) = Return r ->
  (available r = false ->
     (isNotFound (fst (deductStock code q (snd (checkStock code q w))))
      \/ isInsufficientStock (fst (deductStock code q (snd (checkStock code q w)))))
     /\ store (snd (deductStock code q (snd (checkStock code q w)))) = store w)
  /\ (available r = true ->
      (exists d,
          store (snd (deductStock code q (snd (checkStock code q w)))) !! code
            = Some d
          /\ doc_quantity d = Js.sub (currentStock r) q
          /\ (Js.isSafeInteger (currentStock r) = true ->
              Js.isSafeInteger (currentStock r - q) = true ->
              doc_quantity d = currentStock r - q))
      /\ (publishFault w = None ->
          fst (deductStock code q (snd (checkStock code q w))) = Return tt)).
Proof.
  intros Hcheck.
  destruct (checkStock_readonly code q w) as (Hs & _ & Hf & _).
  set (w1 := snd (checkStock code q w)) in *.
  assert (Hreply :
            match store w !! code with
            | None => available r = false
            | Some d => available r = (q <=? doc_quantity d)
                        /\ currentStock r = doc_quantity d
            end).
  { revert Hcheck.
    unfold checkStock, await, findItemById, logger_log, modify, resolve.
    destruct (store w !! code) as [d|]; simpl; intros H; injection H as <-;
      simpl; auto. }
  destruct (store w !! code) as [d|] eqn:Hd.
  - destruct Hreply as [Havail Hstock].
    assert (Hd1 : store w1 !! code = Some d) by (rewrite Hs; exact Hd).
    split; intros Hav; rewrite Hav in Havail; symmetry in Havail.
    + apply Z.leb_gt in Havail.
      destruct (deductStock_insufficient code q d w1 Hd1 Havail)
        as (w2 & -> & Hs2 & _).
      simpl. split; [|congruence].
      right. eexists. split; [reflexivity|apply insufficientStockMessage_prefix].
    + apply Z.leb_le in Havail.
      destruct (deductStock_enough code q d w1 Hd1 Havail) as [Hs2 Hres].
      split.
      * exists (deducted d q). rewrite Hs2, lookup_insert_eq. simpl.
        split; [reflexivity|]. rewrite Hstock.
        split; [reflexivity|]. intros _ Hdiff.
        apply sub_exact. exact Hdiff.
      * intros Hup. rewrite Hf, Hup in Hres. exact (proj1 Hres).
  - assert (Hd1 : store w1 !! code = None) by (rewrite Hs; exact Hd).
    rewrite (deductStock_missing code q w1 Hd1). simpl.
    split; intros Hav; [|congruence].
    split; [left; unfold isNotFound; eauto|exact Hs].
Qed.

Lemma checkStock_predicts_deductStock_witness :
  store (snd (deductStock "PROD-1" 11 (snd (checkStock "PROD-1" 11 (widgetWorld None)))))
  = store (widgetWorld None).
Proof.
  destruct (checkStock_predicts_deductStock "PROD-1" 11 (widgetWorld None)
              {| available := false;
                 message := "Insufficient stock. Requested: 11, Available: 10";
                 currentStock := 10 |}) as [Hrefused _].
  { vm_compute. reflexivity. }
  exact (proj2 (Hrefused eq_refl)).
Defined.

Lemma deductStock_then_lookup (code : string) (q : Z) (d : InventoryDoc)
    (w : World) (e : Env) :
  store w !! code = Some d -> q <= doc_quantity d ->
  store (withEnv e (snd (deductStock code q w))) = <[code := deducted d q]> (store w)
  /\ store (withEnv e (snd (deductStock code q w))) !! code = Some (deducted d q).
Proof.
  intros Hd Hle. destruct (deductStock_enough code q d w Hd Hle) as [Hs _].
  change (store (withEnv e (snd (deductStock code q w))))
    with (store (snd (deductStock code q w))).
  rewrite Hs. split; [reflexivity|apply lookup_insert_eq].
Qed.

Lemma deducted_exact (d : InventoryDoc) (q : Z) :
  Js.isSafeInteger (doc_quantity d - q) = true ->
  deducted d q
  = mkInventoryDoc (doc_name d) (doc_description d) (doc_quantity d - q)
      (doc_price d).
Proof. intros Hdiff. unfold deducted. rewrite (sub_exact _ _ Hdiff). reflexivity. Qed.

(** X10. Of two deductions where the first fits the stock but the two
    together exceed it, the one that comes second is refused with the
    insufficient-stock error, and the store keeps what the first one left
    (the first difference being a safe integer, so that it is exact). *)
Theorem second_deduction_refused (code : string) (q1 q2 : Z) (d : InventoryDoc)
    (w : World) (e : Env) :
  store w !! code = Some d ->
  q1 <= doc_quantity d ->
  doc_quantity d < q1 + q2 ->
  Js.isSafeInteger (doc_quantity d - q1) = true ->
  isInsufficientStock
    (fst (deductStock code q2 (withEnv e (snd (deductStock code q1 w)))))
  /\ store (snd (deductStock code q2 (withEnv e (snd (deductStock code q1 w)))))
       !! code
     = Some (mkInventoryDoc (doc_name d) (doc_description d) (doc_quantity d - q1)
               (doc_price d)).
Proof.
  intros Hd Hfits Hexceeds Hsafe.
  destruct (deductStock_then_lookup code q1 d w e Hd Hfits) as [_ Hd1].
  rewrite (deducted_exact d q1 Hsafe) in Hd1.
  set (d1 := mkInventoryDoc _ _ _ _) in *.
  assert (Hlt : doc_quantity d1 < q2) by (simpl; lia).
  destruct (deductStock_insufficient code q2 d1 _ Hd1 Hlt) as (w2 & -> & Hs2 & _).
  simpl. split.
  - eexists. split; [reflexivity|apply insufficientStockMessage_prefix].
  - rewrite Hs2. exact Hd1.
Qed.

Lemma second_deduction_refused_witness :
  store (snd (deductStock "PROD-1" 6
                (withEnv calmEnv (snd (deductStock "PROD-1" 6 (widgetWorld None))))))
    !! "PROD-1"
  = Some (mkInventoryDoc "Widget" "A widget" 4 (5 # 1)).
Proof.
  apply (second_deduction_refused "PROD-1" 6 6
           (mkInventoryDoc "Widget" "A widget" 10 (5 # 1)) (widgetWorld None) calmEnv).
  - vm_compute. reflexivity.
  - simpl. lia.
  - simpl. lia.
  - reflexivity.
Defined.

(** X11. Two deductions that together fit the stock leave the store as one
    deduction of their sum does, whether or not the broker took the events,
    as long as the differences and the sum are safe integers. *)
Theorem deductions_add_up (code : string) (q1 q2 : Z) (d : InventoryDoc)
    (w : World) (e : Env) :
  store w !! code = Some d ->
  q1 <= doc_quantity d ->
  q1 + q2 <= doc_quantity d ->
  Js.isSafeInteger (doc_quantity d - q1) = true ->
  Js.isSafeInteger (doc_quantity d - q1 - q2) = true ->
  Js.isSafeInteger (q1 + q2) = true ->
  store (snd (deductStock code q2 (withEnv e (snd (deductStock code q1 w)))))
  = store (snd (deductStock code (q1 + q2) w))
  /\ store (snd (deductStock code q2 (withEnv e (snd (deductStock code q1 w)))))
       !! code
     = Some (mkInventoryDoc (doc_name d) (doc_description d)
               (doc_quantity d - q1 - q2) (doc_price d)).
Proof.
  intros Hd Hfits Hboth Hsafe1 Hsafe2 _.
  destruct (deductStock_then_lookup code q1 d w e Hd Hfits) as [Hs1 Hd1].
  rewrite (deducted_exact d q1 Hsafe1) in Hs1, Hd1.
  set (d1 := mkInventoryDoc _ _ (doc_quantity d - q1) _) in *.
  assert (Hle : q2 <= doc_quantity d1) by (simpl; lia).
  destruct (deductStock_enough code q2 d1 _ Hd1 Hle) as [Hs2 _].
  rewrite (deducted_exact d1 q2) in Hs2 by exact Hsafe2.
  destruct (deductStock_enough code (q1 + q2) d w Hd Hboth) as [Hs _].
  rewrite (deducted_exact d (q1 + q2)) in Hs
    by (replace (doc_quantity d - (q1 + q2)) with (doc_quantity d - q1 - q2) by lia;
        exact Hsafe2).
  rewrite Hs2, Hs1, Hs, insert_insert_eq. simpl.
  replace (doc_quantity d - (q1 + q2)) with (doc_quantity d - q1 - q2) by lia.
  split; [reflexivity|apply lookup_insert_eq].
Qed.

Lemma deductions_add_up_witness :
  store (snd (deductStock "PROD-1" 4
                (withEnv faultyEnv (snd (deductStock "PROD-1" 3 (widgetWorld None))))))
  = store (snd (deductStock "PROD-1" 7 (widgetWorld None))).
Proof.
  apply (deductions_add_up "PROD-1" 3 4
           (mkInventoryDoc "Widget" "A widget" 10 (5 # 1)) (widgetWorld None) faultyEnv).
  - vm_compute. reflexivity.
  - simpl. lia.
  - simpl. lia.
  - reflexivity.
  - reflexivity.
  - reflexivity.
Defined.

(** X12. [deductStock] does not look at the sign of the quantity: on an item
    whose stock is not negative, a negative quantity always passes the stock
    test, and the event the broker is handed is still [STOCK_REDUCED]; as long
    as the result is a safe integer, the stored quantity goes up by the
    absolute value of the quantity and the event's [newQuantity] is above its
    [previousQuantity]. *)
Theorem negative_deduction_adds_stock (code : string) (q : Z) (d : InventoryDoc)
    (w : World) :
  store w !! code = Some d ->
  0 <= doc_quantity d ->
  q < 0 ->
  Js.isSafeInteger (doc_quantity d - q) = true ->
  (exists d',
      store (snd (deductStock code q w)) !! code = Some d'
      /\ doc_quantity d' = doc_quantity d + Z.abs q
      /\ doc_quantity d < doc_quantity d')
  /\ (publishFault w = None ->
      fst (deductStock code q w) = Return tt
      /\ exists ev,
           published (snd (deductStock code q w))
           = (published w ++ [publishedEntry ev])%list
           /\ eventType ev = STOCK_REDUCED
           /\ previousQuantity ev < newQuantity ev).
Proof.
  intros Hd Hstock Hneg Hsafe.
  assert (Hle : q <= doc_quantity d) by lia.
  assert (Hsafe0 : Js.isSafeInteger (doc_quantity d) = true).
  { revert Hsafe. unfold Js.isSafeInteger, Js.MAX_SAFE_INTEGER.
    intros H. apply Z.leb_le in H. apply Z.leb_le. lia. }
  destruct (deductStock_enough code q d w Hd Hle) as [Hs Hres].
  split.
  - exists (deducted d q). rewrite Hs, lookup_insert_eq. simpl.
    rewrite (sub_exact _ _ Hsafe). split; [reflexivity|lia].
  - intros Hup. rewrite Hup in Hres. destruct Hres as [Hret Hpub].
    split; [exact Hret|].
    exists (deductEvent code d q (clock w)). simpl.
    split; [exact Hpub|]. split; [reflexivity|].
    rewrite (add_sub_exact _ _ Hsafe0 Hsafe), (sub_exact _ _ Hsafe). lia.
Qed.

Lemma negative_deduction_adds_stock_witness :
  exists d',
    store (snd (deductStock "PROD-1" (-5) (widgetWorld None))) !! "PROD-1" = Some d'
    /\ doc_quantity d' = 15.
Proof.
  destruct (negative_deduction_adds_stock "PROD-1" (-5)
              (mkInventoryDoc "Widget" "A widget" 10 (5 # 1)) (widgetWorld None))
    as [(d' & Hd' & Hq & _) _].
  - vm_compute. reflexivity.
  - simpl. lia.
  - lia.
  - reflexivity.
  - exists d'. split; [exact Hd'|]. rewrite Hq. reflexivity.
Defined.

(** X13. [updateStock] overwrites: after two updates of an item the store is
    what the second update alone would have made it, and the second event
    reports the first update's quantity as its [previousQuantity]. *)
Theorem updateStock_last_write_wins (code : string) (q1 q2 : Z) (d : InventoryDoc)
    (w : World) (e : Env) :
  store w !! code = Some d ->
  store (snd (updateStock code q2 (withEnv e (snd (updateStock code q1 w)))))
  = store (snd (updateStock code q2 w))
  /\ (env_publishFault e = None ->
      exists ev,
        published (snd (updateStock code q2 (withEnv e (snd (updateStock code q1 w)))))
        = (published (snd (updateStock code q1 w)) ++ [publishedEntry ev])%list
        /\ previousQuantity ev = q1
        /\ newQuantity ev = q2
        /\ eventType ev = (if q1 <? q2 then STOCK_ADDED else STOCK_REDUCED)).
Proof.
  intros Hd.
  destruct (updateStock_found code q1 d w Hd) as [Hs1 _].
  destruct (updateStock_found code q2 d w Hd) as [Hs2 _].
  set (w1 := withEnv e (snd (updateStock code q1 w))).
  assert (Hd1 : store w1 !! code = Some (updated d q1)).
  { subst w1. change (store (withEnv e (snd (updateStock code q1 w))))
      with (store (snd (updateStock code q1 w))).
    rewrite Hs1. apply lookup_insert_eq. }
  destruct (updateStock_found code q2 (updated d q1) w1 Hd1) as [Hs Hres].
  split.
  - rewrite Hs, Hs2. subst w1.
    change (store (withEnv e (snd (updateStock code q1 w))))
      with (store (snd (updateStock code q1 w))).
    rewrite Hs1, insert_insert_eq. reflexivity.
  - intros Hup.
    change (publishFault w1) with (env_publishFault e) in Hres.
    rewrite Hup in Hres. destruct Hres as [_ Hpub].
    exists (updateEvent code (updated d q1) q2 (clock w1)).
    split; [exact Hpub|]. simpl. auto.
Qed.

Lemma updateStock_last_write_wins_witness :
  store (snd (updateStock "PROD-1" 8
                (withEnv faultyEnv (snd (updateStock "PROD-1" 3 (widgetWorld None))))))
  = store (snd (updateStock "PROD-1" 8 (widgetWorld None))).
Proof.
  apply (updateStock_last_write_wins "PROD-1" 3 8
           (mkInventoryDoc "Widget" "A widget" 10 (5 # 1)) (widgetWorld None) faultyEnv).
  vm_compute. reflexivity.
Defined.

Lemma createItem_generated_writes (dto : CreateInventoryDto) (w : World) :
  Js.truthy (dto_productCode dto) = false ->
  (exists randomNum,
      In randomNum (entropy w) /\ store w !! codeOfDraw randomNum = None) ->
  exists code,
    store w !! code = None
    /\ store (snd (createItem dto w)) = <[code := newDoc dto]> (store w).
Proof.
  intros Hfalsy Hfresh.
  rewrite (createItem_generated dto w Hfalsy). unfold generateUniqueProductCode.
  pose proof (generateUniqueProductCode_loop_spec (S (length (entropy w))) w)
    as Hloop.
  destruct (generateUniqueProductCode_loop_returns (S (length (entropy w))) w
              (Nat.lt_succ_diag_r _) Hfresh) as (code & w1 & Hgen).
  rewrite Hgen in Hloop |- *.
  destruct Hloop as (Hfree & _ & Hsame).
  apply sameButEntropy_fields in Hsame as (Hs1 & _).
  assert (Hfree1 : store w1 !! code = None) by (rewrite Hs1; exact Hfree).
  destruct (saveAndAnnounce_fresh code (withProductCode code dto) w1 eq_refl Hfree1)
    as [Hs _].
  exists code. split; [exact Hfree|]. rewrite Hs, Hs1. reflexivity.
Qed.

(** X15. [createItem] without a product code is not idempotent: served twice
    with the same request (a client retrying after a publishing error, say),
    it files the request under two different product codes, provided the
    random numbers offer a free code each time. *)
Theorem createItem_generated_twice (dto : CreateInventoryDto) (w : World) (e : Env) :
  Js.truthy (dto_productCode dto) = false ->
  (exists randomNum,
      In randomNum (entropy w) /\ store w !! codeOfDraw randomNum = None) ->
  (exists randomNum,
      In randomNum (env_entropy e)
      /\ store (snd (createItem dto w)) !! codeOfDraw randomNum = None) ->
  exists code1 code2,
    code1 <> code2
    /\ store w !! code1 = None /\ store w !! code2 = None
    /\ store (snd (createItem dto (withEnv e (snd (createItem dto w))))) !! code1
       = Some (newDoc dto)
    /\ store (snd (createItem dto (withEnv e (snd (createItem dto w))))) !! code2
       = Some (newDoc dto).
Proof.
  intros Hfalsy Hfresh1 Hfresh2.
  destruct (createItem_generated_writes dto w Hfalsy Hfresh1) as (code1 & Hfree1 & Hs1).
  destruct (createItem_generated_writes dto (withEnv e (snd (createItem dto w)))
              Hfalsy Hfresh2) as (code2 & Hfree2 & Hs2).
  change (store (withEnv e (snd (createItem dto w))))
    with (store (snd (createItem dto w))) in Hfree2, Hs2.
  rewrite Hs1 in Hfree2, Hs2.
  assert (Hne : code1 <> code2).
  { intros ->. rewrite lookup_insert_eq in Hfree2. discriminate. }
  exists code1, code2. rewrite Hs2.
  split; [exact Hne|]. split; [exact Hfree1|].
  split; [rewrite lookup_insert_ne in Hfree2 by exact Hne; exact Hfree2|].
  split.
  - rewrite lookup_insert_ne by congruence. apply lookup_insert_eq.
  - apply lookup_insert_eq.
Qed.

Lemma createItem_generated_twice_witness :
  exists code1 code2,
    code1 <> code2
    /\ store (snd (createItem gadgetDto
                     (withEnv calmEnv
                        (snd (createItem gadgetDto
                                (withEnv (mkEnv [5%N; 7%N] (Some "Channel closed") 0)
                                   takenCodeWorld))))))
         !! code1 = Some (newDoc gadgetDto)
    /\ store (snd (createItem gadgetDto
                     (withEnv calmEnv
                        (snd (createItem gadgetDto
                                (withEnv (mkEnv [5%N; 7%N] (Some "Channel closed") 0)
                                   takenCodeWorld))))))
         !! code2 = Some (newDoc gadgetDto).
Proof.
  destruct (createItem_generated_twice gadgetDto
              (withEnv (mkEnv [5%N; 7%N] (Some "Channel closed") 0) takenCodeWorld)
              calmEnv eq_refl)
    as (code1 & code2 & Hne & _ & _ & H1 & H2).
  - exists 7%N. split; [right; left; reflexivity|vm_compute; reflexivity].
  - exists 12345%N. split; [left; reflexivity|vm_compute; reflexivity].
  - exists code1, code2. split; [exact Hne|]. split; [exact H1|exact H2].
Defined.

(** X16. The service itself does not check the sign of a quantity:
    [updateStock] on an item of the store, and [createItem] under a free
    supplied code, store a negative quantity as it is given, so that the store
    then holds a negative stock. *)
Theorem service_stores_negative_quantity (w : World) (q : Z) :
  q < 0 ->
  (forall code d,
      store w !! code = Some d ->
      store (snd (updateStock code q w)) !! code = Some (updated d q)
      /\ ~ nonNegativeStock (store (snd (updateStock code q w))))
  /\ (forall dto code,
        dto_productCode dto = Some code -> code <> "" -> store w !! code = None ->
        dto_quantity dto = q ->
        store (snd (createItem dto w)) !! code = Some (newDoc dto)
        /\ ~ nonNegativeStock (store (snd (createItem dto w)))).
Proof.
  intros Hneg. split.
  - intros code d Hd. destruct (updateStock_found code q d w Hd) as [Hs _].
    assert (Hlook : store (snd (updateStock code q w)) !! code = Some (updated d q))
      by (rewrite Hs; apply lookup_insert_eq).
    split; [exact Hlook|]. intros Hnn. specialize (Hnn code _ Hlook). simpl in Hnn. lia.
  - intros dto code Hcode Hne Hfree Hq.
    pose proof (createItem_supplied_store dto code w Hcode Hne) as Hlook.
    rewrite Hfree in Hlook.
    split; [exact Hlook|]. intros Hnn. specialize (Hnn code _ Hlook). simpl in Hnn. lia.
Qed.

Lemma service_stores_negative_quantity_witness :
  store (snd (updateStock "PROD-1" (-10) (widgetWorld None))) !! "PROD-1"
  = Some (mkInventoryDoc "Widget" "A widget" (-10) (5 # 1)).
Proof.
  destruct (service_stores_negative_quantity (widgetWorld None) (-10)) as [Hupdate _].
  - lia.
  - apply (Hupdate "PROD-1" (mkInventoryDoc "Widget" "A widget" 10 (5 # 1))).
    vm_compute. reflexivity.
Defined.
